(** * The backfill traversal of the B-tree (src/btree/backfill.cc)

    A shallow embedding of [backfill_state_t], [num_live],
    [spawn_btree_backfill], [subtrees_backfill] and
    [spawn_subtree_backfill], with the properties of the traversal that
    the specification states about them. *)

From stdpp Require Import base numbers list.
From Stdlib Require Import ZArith Lia.

Local Open Scope Z_scope.

(** ** Machine integers *)

(** [int] is 32 bits wide and signed, [size_t] 64 bits wide and unsigned. *)
Definition INT_MIN : Z := - 2 ^ 31.
Definition INT_MAX : Z := 2 ^ 31 - 1.

Definition wrap_int (z : Z) : Z := (z + 2 ^ 31) mod 2 ^ 32 - 2 ^ 31.
Definition wrap_size_t (z : Z) : Z := z mod 2 ^ 64.

Definition in_int (z : Z) : Prop := INT_MIN <= z <= INT_MAX.

(** ** Data model *)

(** A block id names a fixed-size block of the cache. *)
Abbreviation block_id_t := N.

(** The traversal only reads the field [time] of a timestamp. *)
Record repli_timestamp := { time : N }.

(** A buffer that the session holds; only its identity matters here. *)
Record buf_t := { buf_block_id : block_id_t }.

Record btree_superblock_t := { root_block : block_id_t }.

(** The cache of a slice.  Of its blocks, backfill.cc reads the superblock
    only. *)
Record cache_t := { cache_superblock : btree_superblock_t }.

Record btree_slice_t := { cache : cache_t }.

Variant access_t := rwi_read | rwi_write.

Record transactor_t := {
  txn_cache : cache_t;
  txn_access : access_t;
  txn_since : repli_timestamp
}.

(** The callback is an opaque handle: backfill.cc never calls into it. *)
Abbreviation backfill_callback_t := N.

Record backfill_state_t := {
  slice : btree_slice_t;
  since_when : repli_timestamp;
  transactor : transactor_t;
  callback : backfill_callback_t;
  shutdown_mode : bool;
  held_blocks : list (list buf_t);
  num_pending_blocks : Z
}.

(** The constructor of [backfill_state_t]. *)
Definition new_backfill_state (_slice : btree_slice_t)
    (_since_when : repli_timestamp) (_callback : backfill_callback_t)
  : backfill_state_t :=
  {| slice := _slice;
     since_when := _since_when;
     transactor := {| txn_cache := cache _slice; txn_access := rwi_read;
                      txn_since := _since_when |};
     callback := _callback;
     shutdown_mode := false;
     held_blocks := [];
     num_pending_blocks := 0 |}.

Definition BACKFILLING_MAX_BREADTH_FIRST_BLOCKS : Z := 50000.
Definition BACKFILLING_MAX_PENDING_BLOCKS : Z := 40000.

(** ** [num_live] *)

(** The body of the loop of [num_live]: [ret += state.held_blocks[i].size()].
    The sum is formed in [size_t] and stored back into the [int]. *)
Definition num_live_step (st : backfill_state_t) (i : nat) (ret : Z) : Z :=
  match held_blocks st !! i with
  | Some level_bufs =>
      wrap_int (wrap_size_t (wrap_size_t ret + Z.of_nat (length level_bufs)))
  | None => ret
  end.

Fixpoint num_live_loop (st : backfill_state_t) (i k : nat) (ret : Z) : Z :=
  match k with
  | O => ret
  | S k' => num_live_loop st (S i) k' (num_live_step st i ret)
  end.

Definition num_live (st : backfill_state_t) : Z :=
  let n := wrap_int (Z.of_nat (length (held_blocks st))) in
  let ret := num_live_loop st 0 (Z.to_nat n) 0 in
  wrap_int (ret + num_pending_blocks st).

(** The words of the specification: [held_count] is the sum of the sizes of
    all per-level held lists, [total_live] adds [pending_count] to it. *)
Definition held_count (st : backfill_state_t) : Z :=
  Z.of_nat (sum_list_with length (held_blocks st)).

Definition pending_count (st : backfill_state_t) : Z := num_pending_blocks st.

Definition total_live_spec (st : backfill_state_t) : Z :=
  held_count st + pending_count st.

(** ** Locks, conds and the events of a session *)

(** Modelled from the spec: [buf_lock_t] is used by backfill.cc and declared
    elsewhere.  It is the scoped ownership handle of the design notes: it
    holds the lock of one block or nothing; constructing it on a block
    acquires the block, [release] gives the block up, and leaving the scope
    of a handle that still holds a block releases that block. *)
Abbreviation buf_lock_t := (option block_id_t).

(** Modelled from the spec: [cond_t] is used by backfill.cc and declared
    elsewhere.  It is the one-shot signal of the data model: [pulse]
    signals it, [wait] returns once it has been signaled. *)
Abbreviation cond_t := bool.

(** What a session does to the provider and to the callback, in order.
    The [nat] of [EvAcquireNode] and [EvPulse] is the index of the child in
    [acquisition_conds]. *)
Inductive event :=
| EvAcquire (b : block_id_t)
| EvRelease (b : block_id_t)
| EvRecencyRequest (block_ids : list block_id_t)
| EvAcquireNode (b : block_id_t) (child : nat)
| EvPulse (child : nat)
| EvCallback (pair : N).

Global Instance event_eq_dec : EqDecision event.
Proof. solve_decision. Defined.

Variant fault :=
| AssertionFailed
| OutOfBounds
| ReleaseUnheld
| BadArrayNewLength.

(** How a call ends: it returns, it stays suspended in [wait] on a cond that
    nothing signals, or the process stops on a fault.  Each case carries
    the state and the events up to that point. *)
Inductive outcome (A : Type) :=
| Returned (a : A) (st : backfill_state_t) (tr : list event)
| Blocked (st : backfill_state_t) (tr : list event)
| Crashed (f : fault) (st : backfill_state_t) (tr : list event).
Arguments Returned {A} a st tr.
Arguments Blocked {A} st tr.
Arguments Crashed {A} f st tr.

Definition trace_of {A} (o : outcome A) : list event :=
  match o with
  | Returned _ _ tr | Blocked _ tr | Crashed _ _ tr => tr
  end.

Definition state_of {A} (o : outcome A) : backfill_state_t :=
  match o with
  | Returned _ st _ | Blocked st _ | Crashed _ st _ => st
  end.

Definition after {A} (pre : list event) (o : outcome A) : outcome A :=
  match o with
  | Returned a st tr => Returned a st (pre ++ tr)
  | Blocked st tr => Blocked st (pre ++ tr)
  | Crashed f st tr => Crashed f st (pre ++ tr)
  end.

(** The session monad: the state [backfill_state_t&] is threaded through
    every call, events accumulate. *)
Definition M (A : Type) : Type := backfill_state_t -> outcome A.

Definition ret {A} (a : A) : M A := fun st => Returned a st [].

Definition bind {A B} (m : M A) (k : A -> M B) : M B := fun st =>
  match m st with
  | Returned a st1 tr1 => after tr1 (k a st1)
  | Blocked st1 tr1 => Blocked st1 tr1
  | Crashed f st1 tr1 => Crashed f st1 tr1
  end.

Notation "x <~ m ; k" := (bind m (fun x => k))
  (at level 20, m at level 100, k at level 200, only parsing).
Notation "m ;; k" := (bind m (fun _ => k))
  (at level 100, k at level 200, only parsing, right associativity).

Definition emit (e : event) : M unit := fun st => Returned tt st [e].
Definition gets {A} (f : backfill_state_t -> A) : M A :=
  fun st => Returned (f st) st [].
Definition crash {A} (f : fault) : M A := fun st => Crashed f st [].
Definition suspend {A} : M A := fun st => Blocked st [].

(** [for (int i = 0; i < n; ++i) body], with the variables the body
    updates passed along as [s]. *)
Fixpoint for_loop_from {V} (i k : nat) (body : nat -> V -> M V) (s : V) : M V :=
  match k with
  | O => ret s
  | S k' => s' <~ body i s ; for_loop_from (S i) k' body s'
  end.

Definition for_loop {V} (n : nat) (body : nat -> V -> M V) (s : V) : M V :=
  for_loop_from 0 n body s.

(** [a[i]]; reading past the end of an array is a fault. *)
Definition array_get {A} (a : list A) (i : nat) : M A :=
  match a !! i with
  | Some x => ret x
  | None => crash OutOfBounds
  end.

(** Modelled from the spec: the constructor of [buf_lock_t] on a block,
    the provider's [acquire_block]. *)
Definition buf_lock_acquire (b : block_id_t) : M buf_lock_t :=
  emit (EvAcquire b) ;; ret (Some b).

(** Modelled from the spec: [buf_lock_t::release], the provider's
    [release_block]; a release is required exactly once, so releasing a
    handle that holds nothing is a fault. *)
Definition buf_lock_release (l : buf_lock_t) : M buf_lock_t :=
  match l with
  | Some b => emit (EvRelease b) ;; ret None
  | None => crash ReleaseUnheld
  end.

(** Modelled from the spec: the end of the scope of a [buf_lock_t], which
    releases the block if the handle still holds one. *)
Definition buf_lock_destroy (l : buf_lock_t) : M unit :=
  match l with
  | Some b => emit (EvRelease b)
  | None => ret tt
  end.

(** Modelled from the spec: [cond_t::pulse] and [cond_t::wait]. *)
Definition cond_pulse (child : nat) (c : cond_t) : M cond_t :=
  emit (EvPulse child) ;; ret true.

Definition cond_wait (c : cond_t) : M unit :=
  if c then ret tt else suspend.

(** ** What backfill.cc calls and does not define *)

(** Modelled from the spec: [acquire_node] is called by
    [spawn_subtree_backfill] and defined nowhere in backfill.cc.  It is the
    provider's [acquire_block] on one block, which suspends until the lock
    is granted and then returns.  What one call did through the references
    it was given: the members of the state that are not [const] as it left
    them, whether the [buf_lock_t] holds the node on return, whether the
    cond was pulsed, and what it handed to the callback of the state.  An
    [acquire_node] that goes on into the children of the node, that locks
    other blocks or that fails is not described by this record. *)
Record acquire_effect := {
  ae_shutdown_mode : bool;
  ae_held_blocks : list (list buf_t);
  ae_num_pending_blocks : Z;
  ae_acquired : bool;
  ae_pulsed : bool;
  ae_emitted : list N
}.

(** The state after such a call: the [const] members stay. *)
Definition ae_state (st : backfill_state_t) (r : acquire_effect)
  : backfill_state_t :=
  {| slice := slice st;
     since_when := since_when st;
     transactor := transactor st;
     callback := callback st;
     shutdown_mode := ae_shutdown_mode r;
     held_blocks := ae_held_blocks r;
     num_pending_blocks := ae_num_pending_blocks r |}.

(** The parts of the repository that backfill.cc uses and does not define:
    the two distinguished block ids, whether [rassert] is compiled in, the
    subtree recency that the serializer keeps for a block, and
    [acquire_node]. *)
Record provider := {
  SUPERBLOCK_ID : block_id_t;
  NULL_BLOCK_ID : block_id_t;
  debug_build : bool;
  subtree_recency : transactor_t -> block_id_t -> repli_timestamp;
  acquire_node : backfill_state_t -> block_id_t -> acquire_effect
}.

Section Backfill.

Variable P : provider.

(** [rassert] checks its condition in a debug build only. *)
Definition rassert (c : bool) : M unit :=
  if debug_build P && negb c then crash AssertionFailed else ret tt.

(** Modelled from the spec: [get_recency_timestamps] is called by
    [subtrees_backfill] and defined nowhere in backfill.cc.  It is the provider's
    [batch_subtree_recency]: one request for all the ids, which returns one
    recency timestamp per input id, in the same order. *)
Definition get_recency_timestamps (block_ids : list block_id_t)
  : M (list repli_timestamp) :=
  txn <~ gets transactor ;
  emit (EvRecencyRequest block_ids) ;;
  ret (map (subtree_recency P txn) block_ids).

(** Modelled from the spec: the call
    [acquire_node(buf_lock, state, block_id, acquisition_cond)], with the
    effect of the absent function on its three reference arguments: the
    acquisition of [block_id] is issued, the cond may be pulsed, the lock
    may be held by [buf_lock] on return. *)
Definition call_acquire_node (buf_lock : buf_lock_t) (block_id : block_id_t)
    (child : nat) (acquisition_cond : cond_t) : M (buf_lock_t * cond_t) :=
  fun st =>
    let r := acquire_node P st block_id in
    Returned
      (if ae_acquired r then Some block_id else buf_lock,
       acquisition_cond || ae_pulsed r)
      (ae_state st r)
      ([EvAcquireNode block_id child]
         ++ (if ae_pulsed r then [EvPulse child] else [])
         ++ (if ae_acquired r then [EvAcquire block_id] else [])
         ++ map EvCallback (ae_emitted r)).

(** ** The traversal *)

Definition spawn_subtree_backfill (level : Z) (block_id : block_id_t)
    (child : nat) (acquisition_cond : cond_t) : M cond_t :=
  let buf_lock : buf_lock_t := None in
  r <~ call_acquire_node buf_lock block_id child acquisition_cond ;
  buf_lock_destroy (fst r) ;;
  ret (snd r).

(** The first loop of [subtrees_backfill], one child. *)
Definition spawn_or_prune (level : Z) (block_ids : list block_id_t)
    (recencies : list repli_timestamp) (i : nat)
    (acquisition_conds : list cond_t) : M (list cond_t) :=
  recency <~ array_get recencies i ;
  since <~ gets since_when ;
  c <~ array_get acquisition_conds i ;
  if (time since <=? time recency)%N then
    block_id <~ array_get block_ids i ;
    c' <~ spawn_subtree_backfill level block_id i c ;
    ret (<[i:=c']> acquisition_conds)
  else
    c' <~ cond_pulse i c ;
    ret (<[i:=c']> acquisition_conds).

(** The second loop of [subtrees_backfill], one child. *)
Definition wait_child (acquisition_conds : list cond_t) (i : nat) (_ : unit)
  : M unit :=
  c <~ array_get acquisition_conds i ;
  cond_wait c.

(** The length of [new T[n]]: a negative [n] makes the allocation throw. *)
Definition new_array_length (n : Z) : M nat :=
  if (n <? 0)%Z then crash BadArrayNewLength else ret (Z.to_nat n).

(** [subtrees_backfill] with the signature of the source: the array
    [block_ids] and the count [num_block_ids] are two arguments.  The
    recencies are requested for the first [num_block_ids] entries of the
    array; [parent] is passed by reference, so the lock after the call is
    returned. *)
Definition subtrees_backfill_counted (parent : buf_lock_t) (level : Z)
    (block_ids : list block_id_t) (num_block_ids : Z) : M buf_lock_t :=
  n <~ new_array_length num_block_ids ;
  recencies <~ get_recency_timestamps (take n block_ids) ;
  n <~ new_array_length num_block_ids ;
  let acquisition_conds : list cond_t := replicate n false in
  acquisition_conds <~
    for_loop n (spawn_or_prune level block_ids recencies) acquisition_conds ;
  for_loop n (wait_child acquisition_conds) tt ;;
  buf_lock_release parent.

(** [subtrees_backfill] called on an array with the count of its entries,
    as [spawn_btree_backfill] calls it on [&root_id] with the count 1. *)
Definition subtrees_backfill (parent : buf_lock_t) (level : Z)
    (block_ids : list block_id_t) : M buf_lock_t :=
  subtrees_backfill_counted parent level block_ids
    (Z.of_nat (length block_ids)).

Definition spawn_btree_backfill (slice : btree_slice_t)
    (since_when : repli_timestamp) (callback : backfill_callback_t)
  : outcome unit :=
  let state := new_backfill_state slice since_when callback in
  (buf_lock <~ buf_lock_acquire (SUPERBLOCK_ID P) ;
   root_id <~ gets (fun st =>
     root_block (cache_superblock (txn_cache (transactor st)))) ;
   rassert (negb (root_id =? SUPERBLOCK_ID P)%N) ;;
   if (root_id =? NULL_BLOCK_ID P)%N then
     buf_lock_destroy buf_lock
   else
     buf_lock <~ subtrees_backfill buf_lock 0 [root_id] ;
     buf_lock_destroy buf_lock) state.

End Backfill.

(** ** The end of a session *)

(** A session has ended when it is no longer waiting: it has returned, or
    it has stopped on a fault. *)
Definition session_ended {A} (o : outcome A) : Prop :=
  match o with
  | Blocked _ _ => False
  | _ => True
  end.

(** ** The decisions and the events of one child *)

(** The test of the first loop of [subtrees_backfill] on the child [b]:
    [recencies[i].time >= state.since_when.time]. *)
Definition recent_enough (P : provider) (st : backfill_state_t)
    (b : block_id_t) : bool :=
  (time (since_when st) <=? time (subtree_recency P (transactor st) b))%N.

(** The events of [spawn_subtree_backfill] on the child [b] with index
    [i], when [acquire_node] has the effect [r]. *)
Definition spawned_child_events (b : block_id_t) (i : nat)
    (r : acquire_effect) : list event :=
  [EvAcquireNode b i]
    ++ (if ae_pulsed r then [EvPulse i] else [])
    ++ (if ae_acquired r then [EvAcquire b] else [])
    ++ map EvCallback (ae_emitted r)
    ++ (if ae_acquired r then [EvRelease b] else []).

(** ** Observations on the events of a session *)

Definition is_acquire (e : event) : bool :=
  match e with EvAcquire _ => true | _ => false end.

Definition is_release (e : event) : bool :=
  match e with EvRelease _ => true | _ => false end.

Definition is_recency_request (e : event) : bool :=
  match e with EvRecencyRequest _ => true | _ => false end.

Definition is_callback (e : event) : bool :=
  match e with EvCallback _ => true | _ => false end.

Definition count_events (f : event -> bool) (tr : list event) : nat :=
  length (List.filter f tr).

(** The events by which the traversal works on the children of a parent. *)
Definition is_traversal (e : event) : bool :=
  match e with
  | EvRecencyRequest _ | EvAcquireNode _ _ | EvPulse _ => true
  | _ => false
  end.

(** Giving up one lock on [b] out of the locks [held]. *)
Fixpoint release_one (b : block_id_t) (held : list block_id_t)
  : option (list block_id_t) :=
  match held with
  | [] => None
  | h :: held' =>
      if decide (b = h) then Some held'
      else match release_one b held' with
           | Some rest => Some (h :: rest)
           | None => None
           end
  end.

(** The locks held after the events [tr], from the locks [held]; [None]
    when [tr] releases a lock that is not held at that point. *)
Fixpoint held_after (tr : list event) (held : list block_id_t)
  : option (list block_id_t) :=
  match tr with
  | [] => Some held
  | EvAcquire b :: tr' => held_after tr' (b :: held)
  | EvRelease b :: tr' =>
      match release_one b held with
      | Some held' => held_after tr' held'
      | None => None
      end
  | _ :: tr' => held_after tr' held
  end.

(** The check of section 4.2 of the specification before a batch of [m]
    acquisitions at depth [level]. *)
Definition admission_ok (st : backfill_state_t) (level m : Z) : Prop :=
  num_live st + m <= BACKFILLING_MAX_BREADTH_FIRST_BLOCKS + level.

(** The superblock lock is held at no point at which the traversal works
    on a child. *)
Definition superblock_free_during_traversal (P : provider)
    (tr : list event) : Prop :=
  forall pre e post held,
    tr = pre ++ e :: post ->
    is_traversal e = true ->
    held_after pre [] = Some held ->
    SUPERBLOCK_ID P ∉ held.

(** When the session has ended, every lock it acquired has been released,
    each once, and acquisitions and releases are equal in number. *)
Definition all_released_at_end (o : outcome unit) : Prop :=
  session_ended o ->
  held_after (trace_of o) [] = Some [] /\
  count_events is_acquire (trace_of o) = count_events is_release (trace_of o).

(** Every cond of the array has been pulsed. *)
Definition all_pulsed (conds : list cond_t) : bool := forallb id conds.

(** ** The first loop of [subtrees_backfill] after [i] children *)

(** [st0] is the state at the call, [ids] the children; [conds], [st] and
    [tr] are the conds, the state and the events of the loop so far. *)
Record spawn_loop_inv (P : provider) (st0 : backfill_state_t)
    (ids : list block_id_t) (i : nat) (conds : list cond_t)
    (st : backfill_state_t) (tr : list event) : Prop := {
  sli_length : length conds = length ids;
  sli_since : since_when st = since_when st0;
  sli_txn : transactor st = transactor st0;
  sli_spawned : forall j b, (j < i)%nat -> ids !! j = Some b ->
    recent_enough P st0 b = true -> In (EvAcquireNode b j) tr;
  sli_pruned : forall j b, (j < i)%nat -> ids !! j = Some b ->
    recent_enough P st0 b = false -> In (EvPulse j) tr;
  sli_acquire_node : forall j b, In (EvAcquireNode b j) tr ->
    (j < i)%nat /\ ids !! j = Some b /\ recent_enough P st0 b = true;
  sli_pulsed : forall j, conds !! j = Some true -> In (EvPulse j) tr;
  sli_signaled :
    (forall st' b', ae_pulsed (acquire_node P st' b') = true) ->
    forall j, (j < i)%nat -> conds !! j = Some true;
  sli_release : forall b, In (EvRelease b) tr -> In b ids;
  sli_acquire : forall b, In (EvAcquire b) tr ->
    exists j, In (EvAcquireNode b j) tr;
  sli_no_request : count_events is_recency_request tr = 0%nat;
  sli_balanced : forall held, held_after tr held = Some held;
  sli_counts : count_events is_acquire tr = count_events is_release tr
}.

(** ** A provider to run the traversal on *)

(** An [acquire_node] that is granted the lock at once: it pulses the cond,
    holds the node on return and leaves the counters as they were. *)
Definition acquire_at_once (st : backfill_state_t) (b : block_id_t)
  : acquire_effect :=
  {| ae_shutdown_mode := shutdown_mode st;
     ae_held_blocks := held_blocks st;
     ae_num_pending_blocks := num_pending_blocks st;
     ae_acquired := true;
     ae_pulsed := true;
     ae_emitted := [] |}.

(** Block 0 is the superblock, the all-ones id is the null id, and the
    recency of block [b] is [b] itself. *)
Definition sample_provider : provider :=
  {| SUPERBLOCK_ID := 0%N;
     NULL_BLOCK_ID := 4294967295%N;
     debug_build := true;
     subtree_recency := fun _ b => {| time := b |};
     acquire_node := acquire_at_once |}.

(** A slice whose superblock names [root] as the root. *)
Definition sample_slice (root : block_id_t) : btree_slice_t :=
  {| cache := {| cache_superblock := {| root_block := root |} |} |}.

(** An [acquire_node] that returns with the acquisition still pending: it
    counts the acquisition in [num_pending_blocks], pulses the cond and
    does not hold the node yet. *)
Definition acquire_pending (st : backfill_state_t) (b : block_id_t)
  : acquire_effect :=
  {| ae_shutdown_mode := shutdown_mode st;
     ae_held_blocks := held_blocks st;
     ae_num_pending_blocks := wrap_int (num_pending_blocks st + 1);
     ae_acquired := false;
     ae_pulsed := true;
     ae_emitted := [] |}.

Definition counting_provider : provider :=
  {| SUPERBLOCK_ID := 0%N;
     NULL_BLOCK_ID := 4294967295%N;
     debug_build := true;
     subtree_recency := fun _ b => {| time := b |};
     acquire_node := acquire_pending |}.

(** The state of a session over the sample tree, from the time [since]. *)
Definition sample_state (since : N) : backfill_state_t :=
  new_backfill_state (sample_slice 1) {| time := since |} 0%N.

(** A state with one block held at level 0, two at level 1 and two
    acquisitions pending. *)
Definition sample_tracked_state : backfill_state_t :=
  {| slice := sample_slice 1;
     since_when := {| time := 0 |};
     transactor := {| txn_cache := cache (sample_slice 1);
                      txn_access := rwi_read; txn_since := {| time := 0 |} |};
     callback := 0%N;
     shutdown_mode := false;
     held_blocks := [[{| buf_block_id := 1 |}];
                     [{| buf_block_id := 2 |}; {| buf_block_id := 3 |}]];
     num_pending_blocks := 2 |}.

Definition set_shutdown_mode (flag : bool) (st : backfill_state_t)
  : backfill_state_t :=
  {| slice := slice st; since_when := since_when st;
     transactor := transactor st; callback := callback st;
     shutdown_mode := flag;
     held_blocks := held_blocks st;
     num_pending_blocks := num_pending_blocks st |}.

Definition set_num_pending_blocks (n : Z) (st : backfill_state_t)
  : backfill_state_t :=
  {| slice := slice st; since_when := since_when st;
     transactor := transactor st; callback := callback st;
     shutdown_mode := shutdown_mode st;
     held_blocks := held_blocks st;
     num_pending_blocks := n |}.

(** ** Further observations on the events of a call *)

(** The calls of [acquire_node] among the events, in order: the block and
    the index of the child. *)
Fixpoint acquire_node_calls (tr : list event) : list (block_id_t * nat) :=
  match tr with
  | [] => []
  | EvAcquireNode b i :: tr' => (b, i) :: acquire_node_calls tr'
  | _ :: tr' => acquire_node_calls tr'
  end.

(** The children of [ids] that pass the test of the first loop, in stored
    order, each with its index; the first child has index [i]. *)
Fixpoint recent_children (P : provider) (st : backfill_state_t) (i : nat)
    (ids : list block_id_t) : list (block_id_t * nat) :=
  match ids with
  | [] => []
  | b :: ids' =>
      if recent_enough P st b then (b, i) :: recent_children P st (S i) ids'
      else recent_children P st (S i) ids'
  end.

(** More of what holds after the first [i] children have been through the
    first loop of [subtrees_backfill]. *)
Record spawn_loop_facts (P : provider) (st0 : backfill_state_t)
    (ids : list block_id_t) (i : nat) (conds : list cond_t)
    (st : backfill_state_t) (tr : list event) : Prop := {
  slf_fresh : forall j, (i <= j)%nat -> (j < length ids)%nat ->
    conds !! j = Some false;
  slf_calls : acquire_node_calls tr = recent_children P st0 0 (take i ids);
  slf_quiet :
    (forall st' b', ae_emitted (acquire_node P st' b') = []) ->
    count_events is_callback tr = 0%nat;
  slf_unsignaled :
    (forall st' b', ae_pulsed (acquire_node P st' b') = false) ->
    forall j b, (j < i)%nat -> ids !! j = Some b ->
      recent_enough P st0 b = true -> conds !! j = Some false;
  slf_pruned :
    (forall b, In b ids -> recent_enough P st0 b = false) ->
    st = st0 /\ tr = map EvPulse (seq 0 i) /\
    forall j, (j < i)%nat -> conds !! j = Some true
}.

(** An [acquire_node] that takes the lock and never pulses the cond. *)
Definition acquire_silent (st : backfill_state_t) (b : block_id_t)
  : acquire_effect :=
  {| ae_shutdown_mode := shutdown_mode st;
     ae_held_blocks := held_blocks st;
     ae_num_pending_blocks := num_pending_blocks st;
     ae_acquired := true;
     ae_pulsed := false;
     ae_emitted := [] |}.

Definition silent_provider : provider :=
  {| SUPERBLOCK_ID := 0%N;
     NULL_BLOCK_ID := 4294967295%N;
     debug_build := true;
     subtree_recency := fun _ b => {| time := b |};
     acquire_node := acquire_silent |}.

(** A new deepest level [bufs] in [held_blocks]. *)
Definition push_level (bufs : list buf_t) (st : backfill_state_t)
  : backfill_state_t :=
  {| slice := slice st; since_when := since_when st;
     transactor := transactor st; callback := callback st;
     shutdown_mode := shutdown_mode st;
     held_blocks := held_blocks st ++ [bufs];
     num_pending_blocks := num_pending_blocks st |}.

(** ** Facts on the machine integers *)

Lemma wrap_int_id z : in_int z -> wrap_int z = z.
Proof.
  unfold in_int, INT_MIN, INT_MAX, wrap_int. intros Hz.
  rewrite Z.mod_small by lia. lia.
Qed.

Lemma wrap_int_mod z : wrap_int z mod 2 ^ 32 = z mod 2 ^ 32.
Proof.
  unfold wrap_int. rewrite Zminus_mod_idemp_l. f_equal. lia.
Qed.

Lemma wrap_int_congr a b : a mod 2 ^ 32 = b mod 2 ^ 32 -> wrap_int a = wrap_int b.
Proof.
  intros H. unfold wrap_int. f_equal.
  rewrite <- (Zplus_mod_idemp_l a), H, Zplus_mod_idemp_l. reflexivity.
Qed.

Lemma wrap_size_t_mod z : wrap_size_t z mod 2 ^ 32 = z mod 2 ^ 32.
Proof.
  unfold wrap_size_t. apply Z.mod_mod_divide. exists (2 ^ 32). reflexivity.
Qed.

Lemma wrap_int_add_l a b : wrap_int (wrap_int a + b) = wrap_int (a + b).
Proof.
  apply wrap_int_congr.
  rewrite <- Zplus_mod_idemp_l, wrap_int_mod, Zplus_mod_idemp_l. reflexivity.
Qed.

(** ** [num_live] against the tracker of the specification *)

Lemma num_live_step_sum st i ret bufs :
  held_blocks st !! i = Some bufs ->
  num_live_step st i ret = wrap_int (ret + Z.of_nat (length bufs)).
Proof.
  intros H. unfold num_live_step. rewrite H.
  apply wrap_int_congr.
  rewrite wrap_size_t_mod, <- Zplus_mod_idemp_l, wrap_size_t_mod,
    Zplus_mod_idemp_l.
  reflexivity.
Qed.

Lemma num_live_loop_sum st k : forall i ret,
  (i + k = length (held_blocks st))%nat ->
  wrap_int (num_live_loop st i k ret) =
  wrap_int (ret + Z.of_nat (sum_list_with length (drop i (held_blocks st)))).
Proof.
  induction k as [|k IH]; intros i ret Hlen; simpl.
  - rewrite drop_ge by lia. simpl. f_equal. lia.
  - destruct (lookup_lt_is_Some_2 (held_blocks st) i) as [bufs Hb]; [lia|].
    rewrite IH by lia.
    rewrite (num_live_step_sum _ _ _ _ Hb), wrap_int_add_l.
    rewrite (drop_S _ _ _ Hb). simpl. f_equal. lia.
Qed.

Lemma num_live_wraps st :
  Z.of_nat (length (held_blocks st)) <= INT_MAX ->
  num_live st = wrap_int (total_live_spec st).
Proof.
  intros Hlev. unfold num_live, total_live_spec, held_count, pending_count.
  rewrite (wrap_int_id (Z.of_nat _)) by (unfold in_int, INT_MIN; lia).
  rewrite Nat2Z.id.
  rewrite <- wrap_int_add_l, num_live_loop_sum by lia.
  rewrite wrap_int_add_l. reflexivity.
Qed.

(** C9: for every session state whose counts fit the [int] that [num_live]
    returns, [num_live] is [held_count + pending_count], where [held_count]
    is the sum of the sizes of all per-level held-block lists. *)
Theorem num_live_total_live (st : backfill_state_t) :
  Z.of_nat (length (held_blocks st)) <= INT_MAX ->
  in_int (held_count st + pending_count st) ->
  num_live st = held_count st + pending_count st.
Proof.
  intros Hlev Hfit. rewrite num_live_wraps by assumption.
  apply wrap_int_id. exact Hfit.
Qed.

(** ** The session monad *)

(** A loop whose body always returns and keeps [Inv] returns, and [Inv]
    holds of what it leaves.  [Inv] sees the index, the variables of the
    loop, the state and the events since some earlier point. *)
Lemma for_loop_from_invariant {V}
    (Inv : nat -> V -> backfill_state_t -> list event -> Prop)
    (body : nat -> V -> M V) (hi : nat) :
  (forall i s st tr, (i < hi)%nat -> Inv i s st tr ->
     exists s' st' tr', body i s st = Returned s' st' tr' /\
                        Inv (S i) s' st' (tr ++ tr')) ->
  forall k i s st tr, (i + k = hi)%nat -> Inv i s st tr ->
    exists s' st' tr', for_loop_from i k body s st = Returned s' st' tr' /\
                       Inv hi s' st' (tr ++ tr').
Proof.
  intros Hbody. induction k as [|k IH]; intros i s st tr Hik HI; simpl.
  - exists s, st, []. rewrite app_nil_r.
    replace hi with i by lia. split; [reflexivity | exact HI].
  - destruct (Hbody i s st tr) as (s1 & st1 & tr1 & Hb & HI1); [lia | exact HI |].
    destruct (IH (S i) s1 st1 (tr ++ tr1)) as (s2 & st2 & tr2 & Hl & HI2);
      [lia | exact HI1 |].
    exists s2, st2, (tr1 ++ tr2). unfold bind. rewrite Hb, Hl. simpl.
    split; [reflexivity |]. rewrite app_assoc. exact HI2.
Qed.

(** ** Locks held along a trace *)

Lemma held_after_app tr1 : forall tr2 held,
  held_after (tr1 ++ tr2) held =
  match held_after tr1 held with
  | Some held' => held_after tr2 held'
  | None => None
  end.
Proof.
  induction tr1 as [|e tr1 IH]; intros tr2 held; simpl; [reflexivity |].
  destruct e; try apply IH.
  destruct (release_one b held); [apply IH | reflexivity].
Qed.

Lemma held_after_callbacks pairs held :
  held_after (map EvCallback pairs) held = Some held.
Proof. induction pairs; simpl; auto. Qed.

Lemma count_events_app f tr1 tr2 :
  count_events f (tr1 ++ tr2) = (count_events f tr1 + count_events f tr2)%nat.
Proof. unfold count_events. rewrite List.filter_app, length_app. reflexivity. Qed.

Lemma count_events_callbacks f pairs :
  (forall pair, f (EvCallback pair) = false) ->
  count_events f (map EvCallback pairs) = 0%nat.
Proof.
  intros Hf. unfold count_events.
  induction pairs as [|x pairs IH]; simpl; [reflexivity |].
  rewrite Hf. exact IH.
Qed.

(** ** One child of the first loop *)

Section TraversalFacts.

Variable P : provider.

Lemma spawn_subtree_backfill_eq level b i c st :
  spawn_subtree_backfill P level b i c st =
  Returned (c || ae_pulsed (acquire_node P st b))
    (ae_state st (acquire_node P st b))
    (spawned_child_events b i (acquire_node P st b)).
Proof.
  unfold spawn_subtree_backfill, call_acquire_node, spawned_child_events, bind.
  destruct (acquire_node P st b) as [sm hb np [] pulsed pairs]; simpl;
    rewrite ?app_nil_r, <- ?app_assoc; reflexivity.
Qed.

Lemma spawn_or_prune_eq level ids txn i conds st b c :
  ids !! i = Some b ->
  conds !! i = Some c ->
  spawn_or_prune P level ids (map (subtree_recency P txn) ids) i conds st =
  if (time (since_when st) <=? time (subtree_recency P txn b))%N then
    Returned (<[i := c || ae_pulsed (acquire_node P st b)]> conds)
      (ae_state st (acquire_node P st b))
      (spawned_child_events b i (acquire_node P st b))
  else
    Returned (<[i := true]> conds) st [EvPulse i].
Proof.
  intros Hb Hc. unfold spawn_or_prune, array_get, bind, gets.
  rewrite list_lookup_fmap, Hb, Hc. simpl.
  destruct (time (since_when st) <=? time (subtree_recency P txn b))%N; simpl.
  - rewrite spawn_subtree_backfill_eq. simpl.
    rewrite app_nil_r. reflexivity.
  - reflexivity.
Qed.

(** The events of a spawned child. *)
Lemma in_spawned_child_events e b i r :
  In e (spawned_child_events b i r) ->
  e = EvAcquireNode b i \/ e = EvPulse i \/ e = EvAcquire b \/
  e = EvRelease b \/ exists pair, e = EvCallback pair.
Proof.
  unfold spawned_child_events. rewrite !in_app_iff, in_map_iff.
  intros [H | [H | [H | [H | H]]]].
  - destruct H as [<- | []]. auto.
  - destruct (ae_pulsed r); simpl in H; intuition (subst; auto).
  - destruct (ae_acquired r); simpl in H; intuition (subst; auto).
  - destruct H as (pair & <- & _). eauto 6.
  - destruct (ae_acquired r); simpl in H; intuition (subst; auto).
Qed.

Lemma spawned_child_events_head b i r :
  In (EvAcquireNode b i) (spawned_child_events b i r).
Proof. left. reflexivity. Qed.

Lemma spawned_child_events_pulse b i r :
  ae_pulsed r = true -> In (EvPulse i) (spawned_child_events b i r).
Proof.
  intros H. unfold spawned_child_events. rewrite H. right. left. reflexivity.
Qed.

Lemma spawned_child_events_balanced b i r held :
  held_after (spawned_child_events b i r) held = Some held.
Proof.
  unfold spawned_child_events.
  destruct (ae_pulsed r), (ae_acquired r); simpl;
    rewrite held_after_app, held_after_callbacks; simpl;
    try (destruct (decide (b = b)); [| congruence]); reflexivity.
Qed.

Lemma spawned_child_events_counts b i r :
  count_events is_acquire (spawned_child_events b i r) =
  count_events is_release (spawned_child_events b i r).
Proof.
  unfold spawned_child_events.
  rewrite !count_events_app, !count_events_callbacks by reflexivity.
  destruct (ae_pulsed r), (ae_acquired r); reflexivity.
Qed.

Lemma spawned_child_events_no_request b i r :
  count_events is_recency_request (spawned_child_events b i r) = 0%nat.
Proof.
  unfold spawned_child_events.
  rewrite !count_events_app, !count_events_callbacks by reflexivity.
  destruct (ae_pulsed r), (ae_acquired r); reflexivity.
Qed.

(** ** The first loop *)

Lemma spawn_loop_inv_init st0 ids :
  spawn_loop_inv P st0 ids 0 (replicate (length ids) false) st0 [].
Proof.
  split.
  - apply length_replicate.
  - reflexivity.
  - reflexivity.
  - intros; lia.
  - intros; lia.
  - intros j b [].
  - intros j Hj. apply lookup_replicate in Hj. destruct Hj; discriminate.
  - intros; lia.
  - intros b [].
  - intros b [].
  - reflexivity.
  - reflexivity.
  - reflexivity.
Qed.

Lemma spawn_loop_inv_step level st0 ids i conds st tr :
  (i < length ids)%nat ->
  spawn_loop_inv P st0 ids i conds st tr ->
  exists conds' st' tr',
    spawn_or_prune P level ids (map (subtree_recency P (transactor st0)) ids)
      i conds st = Returned conds' st' tr' /\
    spawn_loop_inv P st0 ids (S i) conds' st' (tr ++ tr').
Proof.
  intros Hi HI. destruct HI.
  destruct (lookup_lt_is_Some_2 ids i Hi) as [b Hb].
  destruct (lookup_lt_is_Some_2 conds i) as [c Hc]; [lia |].
  rewrite (spawn_or_prune_eq _ _ _ _ _ _ _ _ Hb Hc).
  assert (Hrecent : (time (since_when st)
                     <=? time (subtree_recency P (transactor st0) b))%N
                    = recent_enough P st0 b).
  { unfold recent_enough. rewrite sli_since0. reflexivity. }
  rewrite Hrecent.
  destruct (recent_enough P st0 b) eqn:Hrb.
  - set (r := acquire_node P st b).
    eexists _, _, _. split; [reflexivity |].
    split; simpl.
    + rewrite length_insert. assumption.
    + assumption.
    + assumption.
    + intros j b' Hj Hb' Hr'. apply in_app_iff.
      destruct (decide (j = i)) as [-> | Hne].
      * right. rewrite Hb in Hb'. injection Hb' as <-.
        apply spawned_child_events_head.
      * left. apply sli_spawned0; [lia | assumption | assumption].
    + intros j b' Hj Hb' Hr'. apply in_app_iff.
      destruct (decide (j = i)) as [-> | Hne].
      * rewrite Hb in Hb'. injection Hb' as <-. congruence.
      * left. apply (sli_pruned0 j b'); [lia | assumption | assumption].
    + intros j b' Hin. apply in_app_iff in Hin. destruct Hin as [Hin | Hin].
      * destruct (sli_acquire_node0 j b' Hin) as (? & ? & ?).
        split; [lia | split; assumption].
      * apply in_spawned_child_events in Hin.
        destruct Hin as [He | [He | [He | [He | [pair He]]]]]; try discriminate.
        injection He as -> ->. split; [lia | split; assumption].
    + intros j Hj. apply in_app_iff.
      destruct (decide (j = i)) as [-> | Hne].
      * rewrite list_lookup_insert_eq in Hj by lia.
        injection Hj as Hj. apply orb_true_iff in Hj. destruct Hj as [-> | Hp].
        -- left. apply sli_pulsed0. assumption.
        -- right. apply spawned_child_events_pulse. assumption.
      * rewrite list_lookup_insert_ne in Hj by congruence.
        left. apply sli_pulsed0. assumption.
    + intros Hsig j Hj.
      destruct (decide (j = i)) as [-> | Hne].
      * rewrite list_lookup_insert_eq by lia.
        unfold r. rewrite Hsig, orb_true_r. reflexivity.
      * rewrite list_lookup_insert_ne by congruence.
        apply sli_signaled0; [assumption | lia].
    + intros b' Hin. apply in_app_iff in Hin. destruct Hin as [Hin | Hin].
      * apply sli_release0. assumption.
      * apply in_spawned_child_events in Hin.
        destruct Hin as [He | [He | [He | [He | [pair He]]]]]; try discriminate.
        injection He as ->. apply list_elem_of_In, list_elem_of_lookup. eauto.
    + intros b' Hin. apply in_app_iff in Hin. destruct Hin as [Hin | Hin].
      * destruct (sli_acquire0 b' Hin) as [j Hj].
        exists j. apply in_app_iff. left. assumption.
      * apply in_spawned_child_events in Hin.
        destruct Hin as [He | [He | [He | [He | [pair He]]]]]; try discriminate.
        injection He as ->. exists i. apply in_app_iff. right.
        apply spawned_child_events_head.
    + rewrite count_events_app, sli_no_request0,
        spawned_child_events_no_request. reflexivity.
    + intros held. rewrite held_after_app, sli_balanced0.
      apply spawned_child_events_balanced.
    + rewrite !count_events_app, sli_counts0, spawned_child_events_counts.
      reflexivity.
  - eexists _, _, _. split; [reflexivity |].
    split; simpl.
    + rewrite length_insert. assumption.
    + assumption.
    + assumption.
    + intros j b' Hj Hb' Hr'. apply in_app_iff.
      destruct (decide (j = i)) as [-> | Hne].
      * rewrite Hb in Hb'. injection Hb' as <-. congruence.
      * left. apply sli_spawned0; [lia | assumption | assumption].
    + intros j b' Hj Hb' Hr'. apply in_app_iff.
      destruct (decide (j = i)) as [-> | Hne].
      * right. left. reflexivity.
      * left. apply (sli_pruned0 j b'); [lia | assumption | assumption].
    + intros j b' Hin. apply in_app_iff in Hin. destruct Hin as [Hin | Hin].
      * destruct (sli_acquire_node0 j b' Hin) as (? & ? & ?).
        split; [lia | split; assumption].
      * destruct Hin as [He | []]. discriminate.
    + intros j Hj. apply in_app_iff.
      destruct (decide (j = i)) as [-> | Hne].
      * right. left. reflexivity.
      * rewrite list_lookup_insert_ne in Hj by congruence.
        left. apply sli_pulsed0. assumption.
    + intros Hsig j Hj.
      destruct (decide (j = i)) as [-> | Hne].
      * rewrite list_lookup_insert_eq by lia. reflexivity.
      * rewrite list_lookup_insert_ne by congruence.
        apply sli_signaled0; [assumption | lia].
    + intros b' Hin. apply in_app_iff in Hin. destruct Hin as [Hin | Hin].
      * apply sli_release0. assumption.
      * destruct Hin as [He | []]. discriminate.
    + intros b' Hin. apply in_app_iff in Hin. destruct Hin as [Hin | Hin].
      * destruct (sli_acquire0 b' Hin) as [j Hj].
        exists j. apply in_app_iff. left. assumption.
      * destruct Hin as [He | []]. discriminate.
    + rewrite count_events_app, sli_no_request0. reflexivity.
    + intros held. rewrite held_after_app, sli_balanced0. reflexivity.
    + rewrite !count_events_app, sli_counts0. reflexivity.
Qed.

(** The first loop always returns. *)
Lemma spawn_loop_returns level st0 ids :
  exists conds st1 tr1,
    for_loop (length ids)
      (spawn_or_prune P level ids (map (subtree_recency P (transactor st0)) ids))
      (replicate (length ids) false) st0 = Returned conds st1 tr1 /\
    spawn_loop_inv P st0 ids (length ids) conds st1 tr1.
Proof.
  unfold for_loop.
  destruct (for_loop_from_invariant (spawn_loop_inv P st0 ids)
              (spawn_or_prune P level ids
                 (map (subtree_recency P (transactor st0)) ids))
              (length ids)
              (fun i s st tr Hi HI => spawn_loop_inv_step level st0 ids i s st tr Hi HI)
              (length ids) 0%nat (replicate (length ids) false) st0 [])
    as (conds & st1 & tr1 & Hrun & HI).
  - reflexivity.
  - apply spawn_loop_inv_init.
  - exists conds, st1, tr1. split; assumption.
Qed.

(** ** The second loop *)

(** The second loop returns when every cond has been pulsed, and stays in
    [wait] otherwise; it adds no event. *)
Lemma wait_loop_eq conds : forall k i st,
  (i + k = length conds)%nat ->
  for_loop_from i k (wait_child conds) tt st =
  if all_pulsed (drop i conds) then Returned tt st [] else Blocked st [].
Proof.
  induction k as [|k IH]; intros i st Hik; simpl.
  - rewrite drop_ge by lia. reflexivity.
  - destruct (lookup_lt_is_Some_2 conds i) as [c Hc]; [lia |].
    rewrite (drop_S _ _ _ Hc). unfold all_pulsed. simpl.
    unfold bind, wait_child, array_get at 1. rewrite Hc. simpl.
    destruct c; simpl.
    + rewrite IH by lia. unfold all_pulsed.
      destruct (forallb id (drop (S i) conds)); reflexivity.
    + reflexivity.
Qed.

Lemma all_pulsed_lookup conds j :
  all_pulsed conds = true -> (j < length conds)%nat -> conds !! j = Some true.
Proof.
  unfold all_pulsed. rewrite forallb_forall. intros Hall Hj.
  destruct (lookup_lt_is_Some_2 conds j Hj) as [c Hc].
  rewrite Hc. f_equal. apply (Hall c).
  apply list_elem_of_In, list_elem_of_lookup. eauto.
Qed.

Lemma lookup_all_pulsed conds :
  (forall j, (j < length conds)%nat -> conds !! j = Some true) ->
  all_pulsed conds = true.
Proof.
  intros Hall. unfold all_pulsed. apply forallb_forall. intros c Hc.
  apply list_elem_of_In, list_elem_of_lookup in Hc. destruct Hc as [j Hj].
  rewrite (Hall j) in Hj by (eapply lookup_lt_Some; eassumption).
  injection Hj as <-. reflexivity.
Qed.

(** ** [subtrees_backfill] as a whole *)

Lemma after_nil {A} (o : outcome A) : after [] o = o.
Proof. destruct o; reflexivity. Qed.

Lemma new_array_length_of_nat (n : nat) st :
  new_array_length (Z.of_nat n) st = Returned n st [].
Proof.
  unfold new_array_length.
  destruct (Z.ltb_spec (Z.of_nat n) 0) as [Hneg | _]; [lia |].
  unfold ret. rewrite Nat2Z.id. reflexivity.
Qed.

(** The call on an array and its own count. *)
Lemma subtrees_backfill_list parent level ids st :
  subtrees_backfill P parent level ids st =
  (recencies <~ get_recency_timestamps P ids ;
   acquisition_conds <~
     for_loop (length ids) (spawn_or_prune P level ids recencies)
       (replicate (length ids) false) ;
   for_loop (length ids) (wait_child acquisition_conds) tt ;;
   buf_lock_release parent) st.
Proof.
  unfold subtrees_backfill, subtrees_backfill_counted, bind.
  rewrite new_array_length_of_nat. cbn [after app]. rewrite firstn_all.
  destruct (get_recency_timestamps P ids st) as [recs st1 tr1 | |];
    [| reflexivity | reflexivity].
  rewrite new_array_length_of_nat, !after_nil. reflexivity.
Qed.

(** The call requests the recencies, runs the first loop to its end, and
    then releases the parent if every cond has been pulsed; it stays in
    [wait] otherwise. *)
Lemma subtrees_backfill_eq parent level ids st0 :
  exists conds st1 tr1,
    spawn_loop_inv P st0 ids (length ids) conds st1 tr1 /\
    subtrees_backfill P parent level ids st0 =
    if all_pulsed conds then
      match parent with
      | Some p =>
          Returned None st1 (EvRecencyRequest ids :: tr1 ++ [EvRelease p])
      | None => Crashed ReleaseUnheld st1 (EvRecencyRequest ids :: tr1)
      end
    else Blocked st1 (EvRecencyRequest ids :: tr1).
Proof.
  destruct (spawn_loop_returns level st0 ids) as (conds & st1 & tr1 & Hrun & HI).
  exists conds, st1, tr1. split; [exact HI |].
  rewrite subtrees_backfill_list.
  unfold get_recency_timestamps, bind, gets, emit, ret.
  simpl. rewrite Hrun. simpl.
  unfold for_loop.
  rewrite wait_loop_eq by (rewrite (sli_length _ _ _ _ _ _ _ HI); reflexivity).
  rewrite drop_0.
  destruct (all_pulsed conds); simpl.
  - destruct parent as [p |]; simpl; rewrite ?app_nil_r; reflexivity.
  - rewrite app_nil_r. reflexivity.
Qed.

Lemma split_at_last {A} (x : A) (l : list A) : forall pre post,
  ~ In x l -> l ++ [x] = pre ++ x :: post -> pre = l /\ post = [].
Proof.
  induction l as [|a l IH]; intros pre post Hx Heq.
  - destruct pre as [|a' pre]; simpl in Heq.
    + injection Heq as <-. auto.
    + injection Heq as _ Heq. destruct pre; discriminate.
  - destruct pre as [|a' pre]; simpl in Heq.
    + injection Heq as -> _. exfalso. apply Hx. left. reflexivity.
    + injection Heq as <- Heq.
      destruct (IH pre post) as [-> ->]; [| exact Heq | auto].
      intros Hin. apply Hx. right. exact Hin.
Qed.

(** C1: for every parent and every child block reference [b] at index [i]
    of its list: if the subtree recency of the child is at least
    [since_when], an acquisition is issued for that child; otherwise the
    cond of the child is pulsed by the loop and no acquisition is ever
    issued for it. *)
Theorem recent_children_spawned_others_pruned
    (parent : buf_lock_t) (level : Z) (ids : list block_id_t)
    (st : backfill_state_t) (i : nat) (b : block_id_t) :
  ids !! i = Some b ->
  if recent_enough P st b then
    In (EvAcquireNode b i) (trace_of (subtrees_backfill P parent level ids st))
  else
    In (EvPulse i) (trace_of (subtrees_backfill P parent level ids st)) /\
    forall b', ~ In (EvAcquireNode b' i)
                    (trace_of (subtrees_backfill P parent level ids st)).
Proof.
  intros Hb.
  assert (Hi : (i < length ids)%nat) by (eapply lookup_lt_Some; eassumption).
  destruct (subtrees_backfill_eq parent level ids st)
    as (conds & st1 & tr1 & HI & Heq).
  assert (Htr : exists tail,
             trace_of (subtrees_backfill P parent level ids st)
             = EvRecencyRequest ids :: tr1 ++ tail /\
             forall e, In e tail -> is_release e = true).
  { rewrite Heq. destruct (all_pulsed conds); [destruct parent as [p |] |]; simpl.
    - exists [EvRelease p]. split; [reflexivity |].
      intros e [<- | []]. reflexivity.
    - exists []. rewrite app_nil_r. split; [reflexivity | intros e []].
    - exists []. rewrite app_nil_r. split; [reflexivity | intros e []]. }
  destruct Htr as (tail & -> & Htail).
  destruct (recent_enough P st b) eqn:Hrb.
  - right. apply in_app_iff. left.
    apply (sli_spawned _ _ _ _ _ _ _ HI i b Hi Hb Hrb).
  - split.
    + right. apply in_app_iff. left.
      apply (sli_pruned _ _ _ _ _ _ _ HI i b Hi Hb Hrb).
    + intros b' [He | Hin]; [discriminate |].
      apply in_app_iff in Hin. destruct Hin as [Hin | Hin].
      * destruct (sli_acquire_node _ _ _ _ _ _ _ HI i b' Hin) as (_ & Hb' & Hr').
        rewrite Hb in Hb'. injection Hb' as <-. congruence.
      * apply Htail in Hin. discriminate.
Qed.

(** C2: for every call of [subtrees_backfill] on a parent block that is
    not among its own children: wherever the lock of the parent is released
    in the events of the call, the cond of every child, pruned or spawned,
    has been pulsed before that point. *)
Theorem parent_released_after_children_signaled
    (p : block_id_t) (level : Z) (ids : list block_id_t)
    (st : backfill_state_t) (pre post : list event) :
  ~ In p ids ->
  trace_of (subtrees_backfill P (Some p) level ids st)
    = pre ++ EvRelease p :: post ->
  forall i, (i < length ids)%nat -> In (EvPulse i) pre.
Proof.
  intros Hp Hsplit i Hi.
  destruct (subtrees_backfill_eq (Some p) level ids st)
    as (conds & st1 & tr1 & HI & Heq).
  assert (Hfresh : ~ In (EvRelease p) (EvRecencyRequest ids :: tr1)).
  { intros [He | Hin]; [discriminate |].
    apply Hp. apply (sli_release _ _ _ _ _ _ _ HI). exact Hin. }
  rewrite Heq in Hsplit.
  destruct (all_pulsed conds) eqn:Hall; simpl in Hsplit.
  - change (EvRecencyRequest ids :: tr1 ++ [EvRelease p])
      with ((EvRecencyRequest ids :: tr1) ++ [EvRelease p]) in Hsplit.
    apply split_at_last in Hsplit; [| exact Hfresh].
    destruct Hsplit as [-> _]. right.
    apply (sli_pulsed _ _ _ _ _ _ _ HI).
    apply all_pulsed_lookup; [exact Hall |].
    rewrite (sli_length _ _ _ _ _ _ _ HI). exact Hi.
  - exfalso. apply Hfresh. rewrite Hsplit.
    apply in_app_iff. right. left. reflexivity.
Qed.

(** ** A whole session *)

(** The three ways through [spawn_btree_backfill]. *)
Lemma spawn_btree_backfill_eq slice since cb :
  spawn_btree_backfill P slice since cb =
  let st0 := new_backfill_state slice since cb in
  let root_id := root_block (cache_superblock (cache slice)) in
  if debug_build P && (root_id =? SUPERBLOCK_ID P)%N then
    Crashed AssertionFailed st0 [EvAcquire (SUPERBLOCK_ID P)]
  else if (root_id =? NULL_BLOCK_ID P)%N then
    Returned tt st0 [EvAcquire (SUPERBLOCK_ID P); EvRelease (SUPERBLOCK_ID P)]
  else
    after [EvAcquire (SUPERBLOCK_ID P)]
      (bind (subtrees_backfill P (Some (SUPERBLOCK_ID P)) 0 [root_id])
         buf_lock_destroy st0).
Proof.
  unfold spawn_btree_backfill, buf_lock_acquire, rassert, gets, emit, ret.
  unfold bind at 1 2 3 4. cbn [after app transactor txn_cache new_backfill_state].
  rewrite negb_involutive.
  destruct (debug_build P && (root_block (cache_superblock (cache slice))
                              =? SUPERBLOCK_ID P)%N); [reflexivity |].
  unfold crash, ret. cbn [after app].
  destruct (root_block (cache_superblock (cache slice)) =? NULL_BLOCK_ID P)%N.
  - reflexivity.
  - destruct (bind _ _ _); reflexivity.
Qed.

(** C5: for a tree whose superblock names no root, the session hands
    nothing to the callback and returns at once: it only acquires and
    releases the superblock. *)
Theorem empty_tree_emits_nothing
    (slice : btree_slice_t) (since : repli_timestamp)
    (cb : backfill_callback_t) :
  NULL_BLOCK_ID P <> SUPERBLOCK_ID P ->
  root_block (cache_superblock (cache slice)) = NULL_BLOCK_ID P ->
  spawn_btree_backfill P slice since cb =
    Returned tt (new_backfill_state slice since cb)
      [EvAcquire (SUPERBLOCK_ID P); EvRelease (SUPERBLOCK_ID P)] /\
  count_events is_callback
    (trace_of (spawn_btree_backfill P slice since cb)) = 0%nat.
Proof.
  intros Hne Hroot.
  assert (Heq : spawn_btree_backfill P slice since cb =
    Returned tt (new_backfill_state slice since cb)
      [EvAcquire (SUPERBLOCK_ID P); EvRelease (SUPERBLOCK_ID P)]).
  { rewrite spawn_btree_backfill_eq. cbv zeta. rewrite Hroot.
    rewrite (proj2 (N.eqb_neq _ _) Hne), andb_false_r, N.eqb_refl.
    reflexivity. }
  split; [exact Heq |]. rewrite Heq. reflexivity.
Qed.

(** C8: for every parent with N child block references, the call makes
    exactly one recency request, for the whole list of children; what the
    request returns has one timestamp per input id, in the order of the
    ids. *)
Theorem recencies_in_one_batched_request
    (parent : buf_lock_t) (level : Z) (ids : list block_id_t)
    (st : backfill_state_t) :
  count_events is_recency_request
    (trace_of (subtrees_backfill P parent level ids st)) = 1%nat /\
  In (EvRecencyRequest ids) (trace_of (subtrees_backfill P parent level ids st)) /\
  exists recencies,
    get_recency_timestamps P ids st
      = Returned recencies st [EvRecencyRequest ids] /\
    length recencies = length ids /\
    forall i b, ids !! i = Some b ->
      recencies !! i = Some (subtree_recency P (transactor st) b).
Proof.
  destruct (subtrees_backfill_eq parent level ids st)
    as (conds & st1 & tr1 & HI & ->).
  pose proof (sli_no_request _ _ _ _ _ _ _ HI) as Hnone.
  split; [| split].
  - destruct (all_pulsed conds); [destruct parent as [p |] |]; simpl trace_of;
      change (EvRecencyRequest ids :: ?t) with ([EvRecencyRequest ids] ++ t);
      rewrite !count_events_app, Hnone; reflexivity.
  - destruct (all_pulsed conds); [destruct parent as [p |] |]; left; reflexivity.
  - exists (map (subtree_recency P (transactor st)) ids).
    split; [reflexivity | split].
    + apply length_map.
    + intros i b Hb. rewrite list_lookup_fmap, Hb. reflexivity.
Qed.

End TraversalFacts.

(** ** The traversal on the sample tree *)

Example sample_session_trace :
  trace_of (spawn_btree_backfill sample_provider (sample_slice 1)
              {| time := 0 |} 0%N)
  = [EvAcquire 0; EvRecencyRequest [1%N]; EvAcquireNode 1 0; EvPulse 0;
     EvAcquire 1; EvRelease 1; EvRelease 0].
Proof. reflexivity. Qed.

Example sample_children_trace :
  trace_of (subtrees_backfill sample_provider (Some 1%N) 1 [2%N; 3%N]
              (sample_state 3))
  = [EvRecencyRequest [2%N; 3%N]; EvPulse 0; EvAcquireNode 3 1; EvPulse 1;
     EvAcquire 3; EvRelease 3; EvRelease 1].
Proof. reflexivity. Qed.

Lemma num_live_total_live_witness :
  num_live sample_tracked_state
  = held_count sample_tracked_state + pending_count sample_tracked_state /\
  num_live sample_tracked_state = 5.
Proof.
  split; [| reflexivity].
  apply (num_live_total_live sample_tracked_state).
  - vm_compute. discriminate.
  - split; vm_compute; discriminate.
Defined.

Lemma recent_children_spawned_others_pruned_witness :
  In (EvAcquireNode 3 1)
     (trace_of (subtrees_backfill sample_provider (Some 1%N) 1 [2%N; 3%N]
                  (sample_state 3))) /\
  (In (EvPulse 0)
      (trace_of (subtrees_backfill sample_provider (Some 1%N) 1 [2%N; 3%N]
                   (sample_state 3))) /\
   forall b', ~ In (EvAcquireNode b' 0)
                   (trace_of (subtrees_backfill sample_provider (Some 1%N) 1
                                [2%N; 3%N] (sample_state 3)))).
Proof.
  split.
  - exact (recent_children_spawned_others_pruned sample_provider (Some 1%N) 1
             [2%N; 3%N] (sample_state 3) 1%nat 3%N eq_refl).
  - exact (recent_children_spawned_others_pruned sample_provider (Some 1%N) 1
             [2%N; 3%N] (sample_state 3) 0%nat 2%N eq_refl).
Defined.

Lemma parent_released_after_children_signaled_witness :
  ~ In 1%N [2%N; 3%N] /\
  In (EvPulse 0)
     [EvRecencyRequest [2%N; 3%N]; EvPulse 0; EvAcquireNode 3 1; EvPulse 1;
      EvAcquire 3; EvRelease 3] /\
  In (EvPulse 1)
     [EvRecencyRequest [2%N; 3%N]; EvPulse 0; EvAcquireNode 3 1; EvPulse 1;
      EvAcquire 3; EvRelease 3].
Proof.
  assert (Hp : ~ In 1%N [2%N; 3%N]).
  { simpl. intros [H | [H | []]]; discriminate. }
  split; [exact Hp |]. split.
  - apply (parent_released_after_children_signaled sample_provider 1%N 1
             [2%N; 3%N] (sample_state 3)
             [EvRecencyRequest [2%N; 3%N]; EvPulse 0; EvAcquireNode 3 1;
              EvPulse 1; EvAcquire 3; EvRelease 3] [] Hp eq_refl 0%nat).
    simpl. lia.
  - apply (parent_released_after_children_signaled sample_provider 1%N 1
             [2%N; 3%N] (sample_state 3)
             [EvRecencyRequest [2%N; 3%N]; EvPulse 0; EvAcquireNode 3 1;
              EvPulse 1; EvAcquire 3; EvRelease 3] [] Hp eq_refl 1%nat).
    simpl. lia.
Defined.

Lemma empty_tree_emits_nothing_witness :
  spawn_btree_backfill sample_provider (sample_slice 4294967295)
    {| time := 0 |} 0%N
  = Returned tt
      (new_backfill_state (sample_slice 4294967295) {| time := 0 |} 0%N)
      [EvAcquire 0; EvRelease 0] /\
  count_events is_callback
    (trace_of (spawn_btree_backfill sample_provider
                 (sample_slice 4294967295) {| time := 0 |} 0%N)) = 0%nat.
Proof.
  apply (empty_tree_emits_nothing sample_provider
           (sample_slice 4294967295) {| time := 0 |} 0%N).
  - simpl. discriminate.
  - reflexivity.
Defined.

(** C7, as the specification states it, fails on the sample tree: the
    superblock lock is held when the recency of the root is requested. *)
Lemma superblock_held_while_root_traversed :
  ~ superblock_free_during_traversal sample_provider
      (trace_of (spawn_btree_backfill sample_provider
                   (sample_slice 1) {| time := 0 |} 0%N)).
Proof.
  intros Hfree.
  apply (Hfree [EvAcquire 0%N] (EvRecencyRequest [1%N])
           [EvAcquireNode 1 0; EvPulse 0; EvAcquire 1; EvRelease 1; EvRelease 0]
           [0%N]); try reflexivity.
  left.
Qed.

(** C3, on the code: with [num_live] already at
    [BACKFILLING_MAX_BREADTH_FIRST_BLOCKS], [subtrees_backfill] at level 1
    issues the acquisitions of both recent children although the admission
    check of the batch fails, and [num_live] ends above the cap plus the
    level. *)
Theorem acquisitions_issued_without_admission_check :
  let st := set_num_pending_blocks 50000 (sample_state 0) in
  let o := subtrees_backfill counting_provider (Some 1%N) 1 [2%N; 3%N] st in
  num_live st = BACKFILLING_MAX_BREADTH_FIRST_BLOCKS /\
  ~ admission_ok st 1 2 /\
  In (EvAcquireNode 2 0) (trace_of o) /\
  In (EvAcquireNode 3 1) (trace_of o) /\
  num_live (state_of o) = 50002 /\
  BACKFILLING_MAX_BREADTH_FIRST_BLOCKS + 1 < num_live (state_of o).
Proof.
  intros st o.
  assert (Hst : num_live st = 50000) by reflexivity.
  assert (Ho : num_live (state_of o) = 50002) by reflexivity.
  split; [exact Hst |]. split.
  - unfold admission_ok. rewrite Hst. unfold BACKFILLING_MAX_BREADTH_FIRST_BLOCKS. lia.
  - split; [right; left; reflexivity |].
    split; [do 3 right; left; reflexivity |].
    split; [exact Ho |]. rewrite Ho.
    unfold BACKFILLING_MAX_BREADTH_FIRST_BLOCKS. lia.
Qed.

(** C6, on the code: in a state whose [shutdown_mode] is true,
    [subtrees_backfill] still issues the acquisition of a recent child and
    the node is acquired. *)
Theorem acquisition_issued_in_shutdown_mode :
  let st := set_shutdown_mode true (sample_state 0) in
  let o := subtrees_backfill sample_provider (Some 1%N) 1 [2%N; 3%N] st in
  shutdown_mode st = true /\
  In (EvAcquireNode 2 0) (trace_of o) /\
  In (EvAcquire 2) (trace_of o) /\
  In (EvAcquireNode 3 1) (trace_of o).
Proof.
  intros st o. split; [reflexivity |].
  assert (Ho : trace_of o =
    [EvRecencyRequest [2%N; 3%N]; EvAcquireNode 2 0; EvPulse 0; EvAcquire 2;
     EvRelease 2; EvAcquireNode 3 1; EvPulse 1; EvAcquire 3; EvRelease 3;
     EvRelease 1]) by reflexivity.
  rewrite Ho. simpl. auto 12.
Qed.

(** ** Calls, locks and callbacks along a trace *)

Lemma acquire_node_calls_app tr1 tr2 :
  acquire_node_calls (tr1 ++ tr2) =
  acquire_node_calls tr1 ++ acquire_node_calls tr2.
Proof.
  induction tr1 as [|e tr1 IH]; simpl; [reflexivity |].
  destruct e; simpl; rewrite IH; reflexivity.
Qed.

Lemma acquire_node_calls_callbacks pairs :
  acquire_node_calls (map EvCallback pairs) = [].
Proof. induction pairs; simpl; auto. Qed.

Lemma recent_children_app P st l1 : forall i l2,
  recent_children P st i (l1 ++ l2) =
  recent_children P st i l1 ++ recent_children P st (i + length l1) l2.
Proof.
  induction l1 as [|b l1 IH]; intros i l2; simpl.
  - rewrite Nat.add_0_r. reflexivity.
  - rewrite IH. replace (S i + length l1)%nat with (i + S (length l1))%nat by lia.
    destruct (recent_enough P st b); reflexivity.
Qed.

Lemma count_callbacks_map pairs :
  count_events is_callback (map EvCallback pairs) = length pairs.
Proof.
  unfold count_events. induction pairs as [|x pairs IH]; simpl; [reflexivity |].
  rewrite IH. reflexivity.
Qed.

Lemma spawned_child_events_calls b i r :
  acquire_node_calls (spawned_child_events b i r) = [(b, i)].
Proof.
  unfold spawned_child_events. simpl. f_equal.
  rewrite !acquire_node_calls_app, acquire_node_calls_callbacks.
  destruct (ae_pulsed r), (ae_acquired r); reflexivity.
Qed.

Lemma spawned_child_events_callbacks b i r :
  count_events is_callback (spawned_child_events b i r)
  = length (ae_emitted r).
Proof.
  unfold spawned_child_events.
  rewrite !count_events_app, count_callbacks_map.
  destruct (ae_pulsed r), (ae_acquired r); unfold count_events; simpl; lia.
Qed.

Lemma spawned_child_events_pulsed b i r j :
  In (EvPulse j) (spawned_child_events b i r) -> ae_pulsed r = true.
Proof.
  unfold spawned_child_events. rewrite !in_app_iff, in_map_iff.
  intros [H | [H | [H | [H | H]]]].
  - destruct H as [H | []]. discriminate.
  - destruct (ae_pulsed r); [reflexivity | destruct H].
  - destruct (ae_acquired r); simpl in H; intuition discriminate.
  - destruct H as (pair & H & _). discriminate.
  - destruct (ae_acquired r); simpl in H; intuition discriminate.
Qed.

Lemma spawned_child_events_release b i r b' :
  In (EvRelease b') (spawned_child_events b i r) -> b' = b.
Proof.
  intros Hin. apply in_spawned_child_events in Hin.
  destruct Hin as [He | [He | [He | [He | [pair He]]]]]; try discriminate.
  injection He as ->. reflexivity.
Qed.

(** Loops whose bodies agree on the indices they run through agree. *)
Lemma for_loop_from_ext {V} (body1 body2 : nat -> V -> M V) (hi : nat) :
  (forall i s st, (i < hi)%nat -> body1 i s st = body2 i s st) ->
  forall k i s st, (i + k <= hi)%nat ->
    for_loop_from i k body1 s st = for_loop_from i k body2 s st.
Proof.
  intros Hext. induction k as [|k IH]; intros i s st Hik; simpl;
    [reflexivity |].
  unfold bind. rewrite Hext by lia.
  destruct (body2 i s st) as [s1 st1 tr1 | |]; [| reflexivity | reflexivity].
  rewrite IH by lia. reflexivity.
Qed.

Lemma returned_inj {A} (a a' : A) st st' tr tr' :
  Returned a st tr = Returned a' st' tr' -> st' = st /\ tr' = tr.
Proof. intros H. injection H. auto. Qed.

Lemma blocked_inj {A} st st' tr tr' :
  @Blocked A st tr = Blocked st' tr' -> st' = st /\ tr' = tr.
Proof. intros H. injection H. auto. Qed.

Lemma unpulsed_not_all_pulsed (conds : list cond_t) j :
  conds !! j = Some false -> all_pulsed conds = false.
Proof.
  intros Hj. destruct (all_pulsed conds) eqn:Hall; [| reflexivity].
  rewrite (all_pulsed_lookup conds j Hall) in Hj; [discriminate |].
  eapply lookup_lt_Some. eassumption.
Qed.

(** ** More on the first loop *)

Section TraversalMore.

Variable P : provider.

(** One turn of the first loop, by the test on the child. *)
Lemma spawn_or_prune_cases level st0 ids i conds st tr :
  (i < length ids)%nat ->
  spawn_loop_inv P st0 ids i conds st tr ->
  exists b c,
    ids !! i = Some b /\ conds !! i = Some c /\
    spawn_or_prune P level ids (map (subtree_recency P (transactor st0)) ids)
      i conds st =
    if recent_enough P st0 b then
      Returned (<[i := c || ae_pulsed (acquire_node P st b)]> conds)
        (ae_state st (acquire_node P st b))
        (spawned_child_events b i (acquire_node P st b))
    else
      Returned (<[i := true]> conds) st [EvPulse i].
Proof.
  intros Hi HI.
  destruct (lookup_lt_is_Some_2 ids i Hi) as [b Hb].
  destruct (lookup_lt_is_Some_2 conds i) as [c Hc];
    [rewrite (sli_length _ _ _ _ _ _ _ HI); exact Hi |].
  exists b, c. split; [exact Hb | split; [exact Hc |]].
  rewrite (spawn_or_prune_eq _ _ _ _ _ _ _ _ _ Hb Hc).
  unfold recent_enough. rewrite (sli_since _ _ _ _ _ _ _ HI). reflexivity.
Qed.

Lemma spawn_loop_facts_init st0 ids :
  spawn_loop_facts P st0 ids 0 (replicate (length ids) false) st0 [].
Proof.
  split.
  - intros j _ Hj. apply lookup_replicate. split; [reflexivity | exact Hj].
  - rewrite take_0. reflexivity.
  - reflexivity.
  - intros; lia.
  - intros _. split; [reflexivity | split; [reflexivity | intros; lia]].
Qed.

Lemma spawn_loop_facts_step level st0 ids i conds st tr :
  (i < length ids)%nat ->
  spawn_loop_inv P st0 ids i conds st tr /\
  spawn_loop_facts P st0 ids i conds st tr ->
  exists conds' st' tr',
    spawn_or_prune P level ids (map (subtree_recency P (transactor st0)) ids)
      i conds st = Returned conds' st' tr' /\
    (spawn_loop_inv P st0 ids (S i) conds' st' (tr ++ tr') /\
     spawn_loop_facts P st0 ids (S i) conds' st' (tr ++ tr')).
Proof.
  intros Hi [HI HF].
  destruct (spawn_loop_inv_step P level st0 ids i conds st tr Hi HI)
    as (conds' & st' & tr' & Hrun & HI').
  destruct (spawn_or_prune_cases level st0 ids i conds st tr Hi HI)
    as (b & c & Hb & Hc & Hcase).
  exists conds', st', tr'. split; [exact Hrun |]. split; [exact HI' |].
  rewrite Hcase in Hrun. destruct HF.
  assert (Hlen : length conds = length ids)
    by exact (sli_length _ _ _ _ _ _ _ HI).
  assert (Htake : take (S i) ids = take i ids ++ [b])
    by (apply take_S_r; exact Hb).
  assert (Hti : length (take i ids) = i)
    by (rewrite length_take; lia).
  assert (Hc0 : c = false).
  { rewrite (slf_fresh0 i) in Hc by lia. congruence. }
  subst c.
  assert (Hin : In b ids)
    by (apply list_elem_of_In, list_elem_of_lookup; eauto).
  destruct (recent_enough P st0 b) eqn:Hrb; injection Hrun as <- <- <-.
  - split.
    + intros j Hj Hj'. rewrite list_lookup_insert_ne by lia.
      apply slf_fresh0; lia.
    + rewrite acquire_node_calls_app, spawned_child_events_calls, slf_calls0.
      rewrite Htake, recent_children_app, Hti. simpl. rewrite Hrb. reflexivity.
    + intros Hq. rewrite count_events_app, (slf_quiet0 Hq),
        spawned_child_events_callbacks, Hq. reflexivity.
    + intros Hu j b' Hj Hb' Hr'.
      destruct (decide (j = i)) as [-> | Hne].
      * rewrite list_lookup_insert_eq by lia. rewrite Hu. reflexivity.
      * rewrite list_lookup_insert_ne by congruence.
        apply (slf_unsignaled0 Hu j b'); [lia | assumption | assumption].
    + intros Hp. rewrite (Hp b Hin) in Hrb. discriminate.
  - split.
    + intros j Hj Hj'. rewrite list_lookup_insert_ne by lia.
      apply slf_fresh0; lia.
    + rewrite acquire_node_calls_app, slf_calls0.
      rewrite Htake, recent_children_app, Hti. simpl. rewrite Hrb. reflexivity.
    + intros Hq. rewrite count_events_app, (slf_quiet0 Hq). reflexivity.
    + intros Hu j b' Hj Hb' Hr'.
      destruct (decide (j = i)) as [-> | Hne].
      * rewrite Hb in Hb'. injection Hb' as <-. congruence.
      * rewrite list_lookup_insert_ne by congruence.
        apply (slf_unsignaled0 Hu j b'); [lia | assumption | assumption].
    + intros Hp. destruct (slf_pruned0 Hp) as (-> & -> & Hall).
      split; [reflexivity |]. split.
      * rewrite seq_S, map_app. reflexivity.
      * intros j Hj. destruct (decide (j = i)) as [-> | Hne].
        -- rewrite list_lookup_insert_eq by lia. reflexivity.
        -- rewrite list_lookup_insert_ne by congruence. apply Hall. lia.
Qed.

(** The first loop always returns, with all of the above. *)
Lemma spawn_loop_returns_facts level st0 ids :
  exists conds st1 tr1,
    for_loop (length ids)
      (spawn_or_prune P level ids (map (subtree_recency P (transactor st0)) ids))
      (replicate (length ids) false) st0 = Returned conds st1 tr1 /\
    spawn_loop_inv P st0 ids (length ids) conds st1 tr1 /\
    spawn_loop_facts P st0 ids (length ids) conds st1 tr1.
Proof.
  unfold for_loop.
  destruct (for_loop_from_invariant
              (fun i conds st tr =>
                 spawn_loop_inv P st0 ids i conds st tr /\
                 spawn_loop_facts P st0 ids i conds st tr)
              (spawn_or_prune P level ids
                 (map (subtree_recency P (transactor st0)) ids))
              (length ids)
              (fun i s st tr Hi HI =>
                 spawn_loop_facts_step level st0 ids i s st tr Hi HI)
              (length ids) 0%nat (replicate (length ids) false) st0 [])
    as (conds & st1 & tr1 & Hrun & HI & HF).
  - reflexivity.
  - split; [apply spawn_loop_inv_init | apply spawn_loop_facts_init].
  - exists conds, st1, tr1. auto.
Qed.

(** [subtrees_backfill] as a whole, with all of the above. *)
Lemma subtrees_backfill_facts parent level ids st0 :
  exists conds st1 tr1,
    spawn_loop_inv P st0 ids (length ids) conds st1 tr1 /\
    spawn_loop_facts P st0 ids (length ids) conds st1 tr1 /\
    subtrees_backfill P parent level ids st0 =
    if all_pulsed conds then
      match parent with
      | Some p =>
          Returned None st1 (EvRecencyRequest ids :: tr1 ++ [EvRelease p])
      | None => Crashed ReleaseUnheld st1 (EvRecencyRequest ids :: tr1)
      end
    else Blocked st1 (EvRecencyRequest ids :: tr1).
Proof.
  destruct (spawn_loop_returns_facts level st0 ids)
    as (conds & st1 & tr1 & Hrun & HI & HF).
  exists conds, st1, tr1. split; [exact HI | split; [exact HF |]].
  rewrite subtrees_backfill_list.
  unfold get_recency_timestamps, bind, gets, emit, ret.
  simpl. rewrite Hrun. simpl.
  unfold for_loop.
  rewrite wait_loop_eq by (rewrite (sli_length _ _ _ _ _ _ _ HI); reflexivity).
  rewrite drop_0.
  destruct (all_pulsed conds); simpl.
  - destruct parent as [p |]; simpl; rewrite ?app_nil_r; reflexivity.
  - rewrite app_nil_r. reflexivity.
Qed.

(** [subtrees_backfill] on one child. *)
Lemma subtrees_backfill_single parent level b st :
  subtrees_backfill P parent level [b] st =
  if recent_enough P st b then
    if ae_pulsed (acquire_node P st b) then
      match parent with
      | Some p =>
          Returned None (ae_state st (acquire_node P st b))
            (EvRecencyRequest [b]
               :: spawned_child_events b 0 (acquire_node P st b)
               ++ [EvRelease p])
      | None =>
          Crashed ReleaseUnheld (ae_state st (acquire_node P st b))
            (EvRecencyRequest [b]
               :: spawned_child_events b 0 (acquire_node P st b))
      end
    else
      Blocked (ae_state st (acquire_node P st b))
        (EvRecencyRequest [b] :: spawned_child_events b 0 (acquire_node P st b))
  else
    match parent with
    | Some p => Returned None st [EvRecencyRequest [b]; EvPulse 0; EvRelease p]
    | None => Crashed ReleaseUnheld st [EvRecencyRequest [b]; EvPulse 0]
    end.
Proof.
  pose proof (spawn_or_prune_eq P level [b] (transactor st) 0 [false] st b
                false eq_refl eq_refl) as Hstep.
  cbn [map] in Hstep. fold (recent_enough P st b) in Hstep.
  rewrite subtrees_backfill_list.
  unfold get_recency_timestamps, for_loop.
  unfold bind, gets, emit, ret.
  cbn [after app length replicate for_loop_from map].
  unfold bind, ret. rewrite Hstep.
  destruct (recent_enough P st b).
  - unfold wait_child, array_get, cond_wait, bind, ret, suspend.
    cbn -[spawned_child_events].
    destruct (ae_pulsed (acquire_node P st b)); cbn -[spawned_child_events].
    + destruct parent as [p |]; cbn -[spawned_child_events];
        rewrite ?app_nil_r; reflexivity.
    + rewrite !app_nil_r. reflexivity.
  - destruct parent as [p |]; reflexivity.
Qed.

(** ** More on a call of [subtrees_backfill] *)

(** X1: when no child of the list passes the recency test (the empty list
    included), the call returns with the state untouched: it requests the
    recencies, pulses the cond of each child in turn, calls [acquire_node]
    for none and releases the parent. *)
Theorem pruned_children_cost_nothing
    (p : block_id_t) (level : Z) (ids : list block_id_t)
    (st : backfill_state_t) :
  (forall b, In b ids -> recent_enough P st b = false) ->
  subtrees_backfill P (Some p) level ids st =
  Returned None st
    (EvRecencyRequest ids :: map EvPulse (seq 0 (length ids)) ++ [EvRelease p]).
Proof.
  intros Hold.
  destruct (subtrees_backfill_facts (Some p) level ids st)
    as (conds & st1 & tr1 & HI & HF & ->).
  destruct (slf_pruned _ _ _ _ _ _ _ HF Hold) as (-> & -> & Hall).
  rewrite lookup_all_pulsed; [reflexivity |].
  intros j Hj. apply Hall. rewrite <- (sli_length _ _ _ _ _ _ _ HI). exact Hj.
Qed.

(** X3: whatever the outcome of the call, [acquire_node] is called exactly
    once for each child that passes the recency test and for no other, in
    the stored order of the children. *)
Theorem acquisitions_in_stored_order
    (parent : buf_lock_t) (level : Z) (ids : list block_id_t)
    (st : backfill_state_t) :
  acquire_node_calls (trace_of (subtrees_backfill P parent level ids st))
  = recent_children P st 0 ids.
Proof.
  destruct (subtrees_backfill_facts parent level ids st)
    as (conds & st1 & tr1 & HI & HF & ->).
  pose proof (slf_calls _ _ _ _ _ _ _ HF) as Hcalls.
  rewrite firstn_all in Hcalls.
  destruct (all_pulsed conds); [destruct parent as [p |] |]; simpl;
    rewrite ?acquire_node_calls_app, Hcalls; simpl;
    rewrite ?app_nil_r; reflexivity.
Qed.

(** X4: when [acquire_node] always pulses the cond it is given, every call
    on a held parent returns; its last step is the release of the parent,
    and the locks taken before that step have all been given back. *)
Theorem call_returns_when_signaled
    (p : block_id_t) (level : Z) (ids : list block_id_t)
    (st : backfill_state_t) :
  (forall st' b', ae_pulsed (acquire_node P st' b') = true) ->
  exists st1 tr1,
    subtrees_backfill P (Some p) level ids st =
      Returned None st1 (EvRecencyRequest ids :: tr1 ++ [EvRelease p]) /\
    forall held, held_after tr1 held = Some held.
Proof.
  intros Hsig.
  destruct (subtrees_backfill_eq P (Some p) level ids st)
    as (conds & st1 & tr1 & HI & ->).
  exists st1, tr1. split.
  - rewrite lookup_all_pulsed; [reflexivity |].
    intros j Hj. apply (sli_signaled _ _ _ _ _ _ _ HI Hsig).
    rewrite <- (sli_length _ _ _ _ _ _ _ HI). exact Hj.
  - exact (sli_balanced _ _ _ _ _ _ _ HI).
Qed.

(** X5: when [acquire_node] never pulses the cond it is given and some
    child passes the recency test, the call stays in [wait]: it has called
    [acquire_node] for every recent child by then, and a parent that is
    not among the children is not released. *)
Theorem call_blocks_when_unsignaled
    (parent : buf_lock_t) (level : Z) (ids : list block_id_t)
    (st : backfill_state_t) (i : nat) (b : block_id_t) :
  (forall st' b', ae_pulsed (acquire_node P st' b') = false) ->
  ids !! i = Some b ->
  recent_enough P st b = true ->
  exists st1 tr,
    subtrees_backfill P parent level ids st = Blocked st1 tr /\
    acquire_node_calls tr = recent_children P st 0 ids /\
    forall p, ~ In p ids -> ~ In (EvRelease p) tr.
Proof.
  intros Hmute Hb Hrb.
  destruct (subtrees_backfill_facts parent level ids st)
    as (conds & st1 & tr1 & HI & HF & Heq).
  assert (Hi : (i < length ids)%nat) by (eapply lookup_lt_Some; eassumption).
  pose proof (slf_unsignaled _ _ _ _ _ _ _ HF Hmute i b Hi Hb Hrb) as Hc.
  pose proof (slf_calls _ _ _ _ _ _ _ HF) as Hcalls.
  rewrite firstn_all in Hcalls.
  rewrite (unpulsed_not_all_pulsed _ _ Hc) in Heq. rewrite Heq.
  exists st1, (EvRecencyRequest ids :: tr1).
  split; [reflexivity | split; [exact Hcalls |]].
  intros p Hp [He | Hin]; [discriminate |].
  apply Hp, (sli_release _ _ _ _ _ _ _ HI). exact Hin.
Qed.

(** X7: the traversal itself hands nothing to the callback: when
    [acquire_node] emits nothing, neither a call of [subtrees_backfill] nor
    a whole session has any callback event. *)
Theorem driver_never_calls_callback
    (parent : buf_lock_t) (level : Z) (ids : list block_id_t)
    (st : backfill_state_t) (slice : btree_slice_t)
    (since : repli_timestamp) (cb : backfill_callback_t) :
  (forall st' b', ae_emitted (acquire_node P st' b') = []) ->
  count_events is_callback
    (trace_of (subtrees_backfill P parent level ids st)) = 0%nat /\
  count_events is_callback
    (trace_of (spawn_btree_backfill P slice since cb)) = 0%nat.
Proof.
  intros Hquiet.
  assert (Hcall : forall parent level ids st,
    count_events is_callback
      (trace_of (subtrees_backfill P parent level ids st)) = 0%nat).
  { clear parent level ids st. intros parent level ids st.
    destruct (subtrees_backfill_facts parent level ids st)
      as (conds & st1 & tr1 & HI & HF & ->).
    pose proof (slf_quiet _ _ _ _ _ _ _ HF Hquiet) as Hq.
    destruct (all_pulsed conds); [destruct parent as [p |] |]; simpl trace_of;
      change (EvRecencyRequest ids :: ?t) with ([EvRecencyRequest ids] ++ t);
      rewrite !count_events_app, Hq; reflexivity. }
  split; [apply Hcall |].
  rewrite spawn_btree_backfill_eq. cbv zeta.
  destruct (debug_build P && _); [reflexivity |].
  destruct (_ =? NULL_BLOCK_ID P)%N; [reflexivity |].
  unfold bind.
  specialize (Hcall (Some (SUPERBLOCK_ID P)) 0
                [root_block (cache_superblock (cache slice))]
                (new_backfill_state slice since cb)).
  destruct (subtrees_backfill P _ _ _ _) as [l st1 tr1 | st1 tr1 | f st1 tr1];
    simpl in Hcall |- *.
  - destruct l as [b |]; simpl;
      change (EvAcquire (SUPERBLOCK_ID P) :: ?t)
        with ([EvAcquire (SUPERBLOCK_ID P)] ++ t);
      rewrite !count_events_app, Hcall; reflexivity.
  - exact Hcall.
  - exact Hcall.
Qed.

(** X15: a call with a count below the length of the array works on the
    first [num_block_ids] entries only: it behaves as the call on the array
    cut to that count, and never looks at the entries beyond. *)
Theorem counted_call_uses_first_entries
    (parent : buf_lock_t) (level : Z) (ids : list block_id_t) (n : nat)
    (st : backfill_state_t) :
  (n <= length ids)%nat ->
  subtrees_backfill_counted P parent level ids (Z.of_nat n) st =
  subtrees_backfill P parent level (take n ids) st.
Proof.
  intros Hn.
  unfold subtrees_backfill, subtrees_backfill_counted, bind.
  rewrite (length_take_le ids n Hn), !new_array_length_of_nat, !after_nil.
  rewrite take_idemp.
  destruct (get_recency_timestamps P (take n ids) st) as [recs st1 tr1 | |];
    [| reflexivity | reflexivity].
  rewrite !new_array_length_of_nat, !after_nil.
  unfold for_loop at 1 3.
  rewrite (for_loop_from_ext (spawn_or_prune P level ids recs)
             (spawn_or_prune P level (take n ids) recs) n); [reflexivity | | lia].
  intros i s st' Hi. unfold spawn_or_prune, bind, array_get.
  rewrite (lookup_take_lt ids n i Hi). reflexivity.
Qed.

(** X16: a call with a negative count stops at the first allocation: no
    recency is requested, no acquisition is issued, the state is untouched
    and the parent is not released. *)
Theorem negative_count_faults
    (parent : buf_lock_t) (level : Z) (ids : list block_id_t) (n : Z)
    (st : backfill_state_t) :
  n < 0 ->
  subtrees_backfill_counted P parent level ids n st =
  Crashed BadArrayNewLength st [].
Proof.
  intros Hn. unfold subtrees_backfill_counted, bind, new_array_length.
  rewrite (proj2 (Z.ltb_lt n 0) Hn). reflexivity.
Qed.

(** ** More on a session *)

Local Abbreviation root_of slice := (root_block (cache_superblock (cache slice))).

(** Every way through [spawn_btree_backfill]. *)
Lemma spawn_btree_backfill_cases slice since cb :
  spawn_btree_backfill P slice since cb =
  let st0 := new_backfill_state slice since cb in
  let r := acquire_node P st0 (root_of slice) in
  if debug_build P && (root_of slice =? SUPERBLOCK_ID P)%N then
    Crashed AssertionFailed st0 [EvAcquire (SUPERBLOCK_ID P)]
  else if (root_of slice =? NULL_BLOCK_ID P)%N then
    Returned tt st0 [EvAcquire (SUPERBLOCK_ID P); EvRelease (SUPERBLOCK_ID P)]
  else if recent_enough P st0 (root_of slice) then
    if ae_pulsed r then
      Returned tt (ae_state st0 r)
        (EvAcquire (SUPERBLOCK_ID P) :: EvRecencyRequest [root_of slice]
           :: spawned_child_events (root_of slice) 0 r
           ++ [EvRelease (SUPERBLOCK_ID P)])
    else
      Blocked (ae_state st0 r)
        (EvAcquire (SUPERBLOCK_ID P) :: EvRecencyRequest [root_of slice]
           :: spawned_child_events (root_of slice) 0 r)
  else
    Returned tt st0
      [EvAcquire (SUPERBLOCK_ID P); EvRecencyRequest [root_of slice];
       EvPulse 0; EvRelease (SUPERBLOCK_ID P)].
Proof.
  rewrite spawn_btree_backfill_eq. cbv zeta.
  destruct (debug_build P && _); [reflexivity |].
  destruct (_ =? NULL_BLOCK_ID P)%N; [reflexivity |].
  unfold bind. rewrite subtrees_backfill_single.
  destruct (recent_enough P _ _); [| reflexivity].
  destruct (ae_pulsed _); cbn -[spawned_child_events];
    rewrite ?app_nil_r; reflexivity.
Qed.

(** C4, as the code has it: on every path on which a session returns, it
    has released every lock it acquired, each once, and the driver has not
    touched the state, which is as constructed or as the one call of
    [acquire_node] left it.  The other ends release nothing: a debug build
    whose superblock names itself as the root stops on the [rassert] with
    the superblock acquired and not released, and a session that stays in
    [wait] holds the superblock lock and nothing else. *)
Theorem session_lock_accounting
    (slice : btree_slice_t) (since : repli_timestamp)
    (cb : backfill_callback_t) :
  (forall st tr,
     spawn_btree_backfill P slice since cb = Returned tt st tr ->
     held_after tr [] = Some [] /\
     count_events is_acquire tr = count_events is_release tr /\
     (st = new_backfill_state slice since cb \/
      st = ae_state (new_backfill_state slice since cb)
             (acquire_node P (new_backfill_state slice since cb)
                (root_of slice)))) /\
  (debug_build P = true -> root_of slice = SUPERBLOCK_ID P ->
   spawn_btree_backfill P slice since cb =
   Crashed AssertionFailed (new_backfill_state slice since cb)
     [EvAcquire (SUPERBLOCK_ID P)]) /\
  (forall st tr,
     spawn_btree_backfill P slice since cb = Blocked st tr ->
     held_after tr [] = Some [SUPERBLOCK_ID P] /\
     count_events is_acquire tr = S (count_events is_release tr)).
Proof.
  rewrite spawn_btree_backfill_cases. cbv zeta.
  assert (Hown : release_one (SUPERBLOCK_ID P) [SUPERBLOCK_ID P] = Some []).
  { simpl. destruct (decide (SUPERBLOCK_ID P = SUPERBLOCK_ID P)); congruence. }
  split; [| split].
  - intros st tr.
    destruct (debug_build P && _); [discriminate |].
    destruct (_ =? NULL_BLOCK_ID P)%N.
    { intros Heq. apply returned_inj in Heq. destruct Heq as [-> ->].
      split; [cbn [held_after]; rewrite Hown; reflexivity |].
      split; [reflexivity | auto]. }
    destruct (recent_enough P _ _).
    + set (r := acquire_node P _ _).
      destruct (ae_pulsed r); [| discriminate].
      intros Heq. apply returned_inj in Heq. destruct Heq as [-> ->]. split; [| split; [| auto]].
      * cbn -[spawned_child_events]. rewrite held_after_app,
          spawned_child_events_balanced. cbn [held_after].
        rewrite Hown. reflexivity.
      * change (EvAcquire (SUPERBLOCK_ID P) :: EvRecencyRequest ?l :: ?t)
          with ([EvAcquire (SUPERBLOCK_ID P); EvRecencyRequest l] ++ t).
        rewrite !count_events_app, spawned_child_events_counts.
        unfold count_events at 1 3 4 6. simpl. lia.
    + intros Heq. apply returned_inj in Heq. destruct Heq as [-> ->].
      split; [cbn [held_after]; rewrite Hown; reflexivity |].
      split; [reflexivity | auto].
  - intros Hdbg Hroot. rewrite Hdbg, Hroot, N.eqb_refl. reflexivity.
  - intros st tr.
    destruct (debug_build P && _); [discriminate |].
    destruct (_ =? NULL_BLOCK_ID P)%N; [discriminate |].
    destruct (recent_enough P _ _); [| discriminate].
    set (r := acquire_node P _ _).
    destruct (ae_pulsed r); [discriminate |].
    intros Heq. apply blocked_inj in Heq. destruct Heq as [-> ->]. split.
    + cbn -[spawned_child_events]. apply spawned_child_events_balanced.
    + change (EvAcquire (SUPERBLOCK_ID P) :: EvRecencyRequest ?l :: ?t)
        with ([EvAcquire (SUPERBLOCK_ID P); EvRecencyRequest l] ++ t).
      rewrite !count_events_app, spawned_child_events_counts.
      unfold count_events at 1 3. simpl. reflexivity.
Qed.

(** C7, as the code has it: the superblock lock is passed to the traversal
    as the parent of the root.  For a tree with a root other than the
    superblock, the lock is taken first and is not released while the
    recency of the root is requested and, when the root passes the recency
    test, while its acquisition is issued; it is released last, once the
    cond of the root has been pulsed, and not at all when that cond is
    never pulsed.  For a tree with no root it is released right after the
    root block id has been read. *)
Theorem superblock_held_across_root_acquisition
    (slice : btree_slice_t) (since : repli_timestamp)
    (cb : backfill_callback_t) :
  root_of slice <> SUPERBLOCK_ID P ->
  if (root_of slice =? NULL_BLOCK_ID P)%N then
    spawn_btree_backfill P slice since cb =
    Returned tt (new_backfill_state slice since cb)
      [EvAcquire (SUPERBLOCK_ID P); EvRelease (SUPERBLOCK_ID P)]
  else
    exists mid,
      ~ In (EvRelease (SUPERBLOCK_ID P)) mid /\
      (recent_enough P (new_backfill_state slice since cb) (root_of slice)
       = true -> In (EvAcquireNode (root_of slice) 0) mid) /\
      ((In (EvPulse 0) mid /\
        exists st,
          spawn_btree_backfill P slice since cb =
          Returned tt st
            (EvAcquire (SUPERBLOCK_ID P) :: EvRecencyRequest [root_of slice]
               :: mid ++ [EvRelease (SUPERBLOCK_ID P)])) \/
       (~ In (EvPulse 0) mid /\
        exists st,
          spawn_btree_backfill P slice since cb =
          Blocked st
            (EvAcquire (SUPERBLOCK_ID P) :: EvRecencyRequest [root_of slice]
               :: mid))).
Proof.
  intros Hsuper. rewrite spawn_btree_backfill_cases. cbv zeta.
  rewrite (proj2 (N.eqb_neq _ _) Hsuper), andb_false_r.
  destruct (_ =? NULL_BLOCK_ID P)%N; [reflexivity |].
  destruct (recent_enough P _ _).
  - set (r := acquire_node P _ _).
    exists (spawned_child_events (root_of slice) 0 r).
    split; [| split].
    + intros Hin. apply spawned_child_events_release in Hin. congruence.
    + intros _. apply spawned_child_events_head.
    + destruct (ae_pulsed r) eqn:Hp.
      * left. split; [apply spawned_child_events_pulse; exact Hp | eauto].
      * right. split; [| eauto].
        intros Hin. apply spawned_child_events_pulsed in Hin. congruence.
  - exists [EvPulse 0]. split; [| split].
    + intros [He | []]. discriminate.
    + discriminate.
    + left. split; [left; reflexivity | eauto].
Qed.

(** X11: when the tree has a root that fails the recency test, the session
    returns with the state as constructed, after the superblock lock, one
    recency request for the root, the pulse of its cond and the release of
    the superblock: no node is acquired. *)
Theorem session_on_pruned_root
    (slice : btree_slice_t) (since : repli_timestamp)
    (cb : backfill_callback_t) :
  root_of slice <> NULL_BLOCK_ID P ->
  root_of slice <> SUPERBLOCK_ID P ->
  recent_enough P (new_backfill_state slice since cb) (root_of slice) = false ->
  spawn_btree_backfill P slice since cb =
  Returned tt (new_backfill_state slice since cb)
    [EvAcquire (SUPERBLOCK_ID P); EvRecencyRequest [root_of slice];
     EvPulse 0; EvRelease (SUPERBLOCK_ID P)].
Proof.
  intros Hnull Hsuper Hold.
  rewrite spawn_btree_backfill_cases. cbv zeta.
  rewrite (proj2 (N.eqb_neq _ _) Hsuper), andb_false_r.
  rewrite (proj2 (N.eqb_neq _ _) Hnull), Hold. reflexivity.
Qed.

(** X13: when the tree has a root that passes the recency test, the
    session calls [acquire_node] once, on the state as constructed.  If
    that call pulsed the cond, the session returns with the state the call
    left and the superblock released last; if not, the session stays in
    [wait] and the superblock lock is still held. *)
Theorem session_on_recent_root
    (slice : btree_slice_t) (since : repli_timestamp)
    (cb : backfill_callback_t) :
  root_of slice <> NULL_BLOCK_ID P ->
  root_of slice <> SUPERBLOCK_ID P ->
  recent_enough P (new_backfill_state slice since cb) (root_of slice) = true ->
  spawn_btree_backfill P slice since cb =
  if ae_pulsed (acquire_node P (new_backfill_state slice since cb)
                  (root_of slice))
  then
    Returned tt
      (ae_state (new_backfill_state slice since cb)
         (acquire_node P (new_backfill_state slice since cb) (root_of slice)))
      (EvAcquire (SUPERBLOCK_ID P) :: EvRecencyRequest [root_of slice]
         :: spawned_child_events (root_of slice) 0
              (acquire_node P (new_backfill_state slice since cb)
                 (root_of slice))
         ++ [EvRelease (SUPERBLOCK_ID P)])
  else
    Blocked
      (ae_state (new_backfill_state slice since cb)
         (acquire_node P (new_backfill_state slice since cb) (root_of slice)))
      (EvAcquire (SUPERBLOCK_ID P) :: EvRecencyRequest [root_of slice]
         :: spawned_child_events (root_of slice) 0
              (acquire_node P (new_backfill_state slice since cb)
                 (root_of slice))).
Proof.
  intros Hnull Hsuper Hnew.
  rewrite spawn_btree_backfill_cases. cbv zeta.
  rewrite (proj2 (N.eqb_neq _ _) Hsuper), andb_false_r.
  rewrite (proj2 (N.eqb_neq _ _) Hnull), Hnew. reflexivity.
Qed.

End TraversalMore.

(** ** More on [num_live] *)

(** X14: [num_live] counts every held block once, whatever its level: a
    new level adds its size to [num_live], as long as the counts fit the
    [int]. *)
Theorem num_live_push_level (bufs : list buf_t) (st : backfill_state_t) :
  Z.of_nat (length (held_blocks st)) < INT_MAX ->
  in_int (held_count st + pending_count st) ->
  in_int (held_count st + pending_count st + Z.of_nat (length bufs)) ->
  num_live (push_level bufs st) = num_live st + Z.of_nat (length bufs).
Proof.
  intros Hlev Hold Hnew.
  rewrite (num_live_wraps st) by lia.
  rewrite (num_live_wraps (push_level bufs st))
    by (simpl; rewrite length_app; simpl; lia).
  assert (Htotal : total_live_spec (push_level bufs st)
                   = total_live_spec st + Z.of_nat (length bufs)).
  { unfold total_live_spec, held_count, pending_count. simpl.
    rewrite sum_list_with_app. simpl. lia. }
  rewrite Htotal. unfold total_live_spec.
  rewrite !wrap_int_id by assumption. reflexivity.
Qed.

(** ** The further properties on the sample tree *)

Lemma pruned_children_cost_nothing_witness :
  subtrees_backfill sample_provider (Some 1%N) 1 [2%N; 3%N] (sample_state 5)
  = Returned None (sample_state 5)
      [EvRecencyRequest [2%N; 3%N]; EvPulse 0; EvPulse 1; EvRelease 1].
Proof.
  apply (pruned_children_cost_nothing sample_provider 1%N 1 [2%N; 3%N]
           (sample_state 5)).
  intros b [<- | [<- | []]]; reflexivity.
Defined.

Lemma call_returns_when_signaled_witness :
  exists st1 tr1,
    subtrees_backfill sample_provider (Some 1%N) 1 [2%N; 3%N] (sample_state 0)
      = Returned None st1 (EvRecencyRequest [2%N; 3%N] :: tr1 ++ [EvRelease 1])
    /\ forall held, held_after tr1 held = Some held.
Proof.
  apply (call_returns_when_signaled sample_provider 1%N 1 [2%N; 3%N]
           (sample_state 0)).
  intros st' b'. reflexivity.
Defined.

Lemma call_blocks_when_unsignaled_witness :
  exists st1 tr,
    subtrees_backfill silent_provider (Some 1%N) 1 [2%N; 3%N] (sample_state 3)
      = Blocked st1 tr /\
    acquire_node_calls tr
      = recent_children silent_provider (sample_state 3) 0 [2%N; 3%N] /\
    forall p, ~ In p [2%N; 3%N] -> ~ In (EvRelease p) tr.
Proof.
  apply (call_blocks_when_unsignaled silent_provider (Some 1%N) 1 [2%N; 3%N]
           (sample_state 3) 1%nat 3%N).
  - intros st' b'. reflexivity.
  - reflexivity.
  - reflexivity.
Defined.

Lemma driver_never_calls_callback_witness :
  count_events is_callback
    (trace_of (subtrees_backfill sample_provider (Some 1%N) 1 [2%N; 3%N]
                 (sample_state 0))) = 0%nat /\
  count_events is_callback
    (trace_of (spawn_btree_backfill sample_provider
                 (sample_slice 1) {| time := 0 |} 0%N)) = 0%nat.
Proof.
  apply (driver_never_calls_callback sample_provider (Some 1%N) 1 [2%N; 3%N]
           (sample_state 0) (sample_slice 1) {| time := 0 |} 0%N).
  intros st' b'. reflexivity.
Defined.

Lemma session_on_pruned_root_witness :
  spawn_btree_backfill sample_provider (sample_slice 1)
    {| time := 5 |} 0%N
  = Returned tt (sample_state 5)
      [EvAcquire 0; EvRecencyRequest [1%N]; EvPulse 0; EvRelease 0].
Proof.
  apply (session_on_pruned_root sample_provider (sample_slice 1)
           {| time := 5 |} 0%N).
  - simpl. discriminate.
  - simpl. discriminate.
  - reflexivity.
Defined.

Lemma session_on_recent_root_witness :
  spawn_btree_backfill sample_provider (sample_slice 1)
    {| time := 0 |} 0%N
  = Returned tt (sample_state 0)
      [EvAcquire 0; EvRecencyRequest [1%N]; EvAcquireNode 1 0; EvPulse 0;
       EvAcquire 1; EvRelease 1; EvRelease 0].
Proof.
  apply (session_on_recent_root sample_provider (sample_slice 1)
           {| time := 0 |} 0%N).
  - simpl. discriminate.
  - simpl. discriminate.
  - reflexivity.
Defined.

Lemma num_live_push_level_witness :
  num_live (push_level [{| buf_block_id := 4 |}] sample_tracked_state)
  = num_live sample_tracked_state + 1 /\
  num_live (push_level [{| buf_block_id := 4 |}] sample_tracked_state) = 6.
Proof.
  split; [| reflexivity].
  apply (num_live_push_level [{| buf_block_id := 4 |}] sample_tracked_state).
  - vm_compute. reflexivity.
  - split; vm_compute; discriminate.
  - split; vm_compute; discriminate.
Defined.

Lemma counted_call_uses_first_entries_witness :
  subtrees_backfill_counted sample_provider (Some 1%N) 1 [2%N; 3%N; 9%N] 2
    (sample_state 3)
  = subtrees_backfill sample_provider (Some 1%N) 1 [2%N; 3%N] (sample_state 3)
  /\ trace_of (subtrees_backfill_counted sample_provider (Some 1%N) 1
                 [2%N; 3%N; 9%N] 2 (sample_state 3))
     = [EvRecencyRequest [2%N; 3%N]; EvPulse 0; EvAcquireNode 3 1; EvPulse 1;
        EvAcquire 3; EvRelease 3; EvRelease 1].
Proof.
  split; [| reflexivity].
  apply (counted_call_uses_first_entries sample_provider (Some 1%N) 1
           [2%N; 3%N; 9%N] 2%nat (sample_state 3)).
  simpl. lia.
Defined.

Lemma negative_count_faults_witness :
  subtrees_backfill_counted sample_provider (Some 1%N) 1 [2%N; 3%N] (-1)
    (sample_state 0)
  = Crashed BadArrayNewLength (sample_state 0) [].
Proof.
  apply (negative_count_faults sample_provider (Some 1%N) 1 [2%N; 3%N] (-1)
           (sample_state 0)).
  lia.
Defined.

(** C4, as the specification states it, fails on a debug build whose
    superblock names itself as the root: the session ends on the [rassert]
    with the superblock acquired and not released. *)
Lemma session_ends_with_superblock_held :
  ~ all_released_at_end
      (spawn_btree_backfill sample_provider (sample_slice 0)
         {| time := 0 |} 0%N).
Proof.
  intros Hall. destruct (Hall I) as [Hheld _]. discriminate Hheld.
Qed.

Lemma session_lock_accounting_witness :
  (held_after
     (trace_of (spawn_btree_backfill sample_provider (sample_slice 1)
                  {| time := 0 |} 0%N)) [] = Some [] /\
   count_events is_acquire
     (trace_of (spawn_btree_backfill sample_provider (sample_slice 1)
                  {| time := 0 |} 0%N)) = 2%nat) /\
  spawn_btree_backfill sample_provider (sample_slice 0) {| time := 0 |} 0%N
    = Crashed AssertionFailed
        (new_backfill_state (sample_slice 0) {| time := 0 |} 0%N)
        [EvAcquire 0] /\
  held_after
    (trace_of (spawn_btree_backfill silent_provider (sample_slice 1)
                 {| time := 0 |} 0%N)) [] = Some [0%N].
Proof.
  split; [| split].
  - split; [| reflexivity].
    apply (proj1 (session_lock_accounting sample_provider (sample_slice 1)
                    {| time := 0 |} 0%N)
             (state_of (spawn_btree_backfill sample_provider (sample_slice 1)
                          {| time := 0 |} 0%N))
             (trace_of (spawn_btree_backfill sample_provider (sample_slice 1)
                          {| time := 0 |} 0%N)) eq_refl).
  - apply (proj1 (proj2 (session_lock_accounting sample_provider
                           (sample_slice 0) {| time := 0 |} 0%N))
             eq_refl eq_refl).
  - apply (proj2 (proj2 (session_lock_accounting silent_provider
                           (sample_slice 1) {| time := 0 |} 0%N))
             (state_of (spawn_btree_backfill silent_provider (sample_slice 1)
                          {| time := 0 |} 0%N))
             (trace_of (spawn_btree_backfill silent_provider (sample_slice 1)
                          {| time := 0 |} 0%N)) eq_refl).
Defined.

Lemma superblock_held_across_root_acquisition_witness :
  (exists mid,
     ~ In (EvRelease 0%N) mid /\
     (recent_enough sample_provider
        (new_backfill_state (sample_slice 1) {| time := 0 |} 0%N) 1%N = true ->
      In (EvAcquireNode 1 0) mid) /\
     ((In (EvPulse 0) mid /\
       exists st,
         spawn_btree_backfill sample_provider (sample_slice 1)
           {| time := 0 |} 0%N
         = Returned tt st
             (EvAcquire 0 :: EvRecencyRequest [1%N] :: mid ++ [EvRelease 0])) \/
      (~ In (EvPulse 0) mid /\
       exists st,
         spawn_btree_backfill sample_provider (sample_slice 1)
           {| time := 0 |} 0%N
         = Blocked st (EvAcquire 0 :: EvRecencyRequest [1%N] :: mid)))) /\
  spawn_btree_backfill sample_provider (sample_slice 4294967295)
    {| time := 0 |} 0%N
  = Returned tt
      (new_backfill_state (sample_slice 4294967295) {| time := 0 |} 0%N)
      [EvAcquire 0; EvRelease 0].
Proof.
  split.
  - apply (superblock_held_across_root_acquisition sample_provider
             (sample_slice 1) {| time := 0 |} 0%N).
    simpl. discriminate.
  - apply (superblock_held_across_root_acquisition sample_provider
             (sample_slice 4294967295) {| time := 0 |} 0%N).
    simpl. discriminate.
Defined.
